(** * Language-identification notebooks: data handling and evaluation glue

    A shallow embedding of the Python functions defined in the two notebooks
    (the BERT fine-tuning notebook and the TF-IDF / Word2Vec notebook):
    [load_data_sample], [load_datasets], the label indexer ([lang2idx],
    [encode_labels], [label_to_index], [index_to_language]),
    [word2vec_transform], [predict_language], [train_and_tune_model] and
    [predict_and_evaluate].

    Python's interpreter state that the functions touch (the file system, the
    state of the module-level generator of [random], the notebook's global
    name [word2vec]) is threaded explicitly through a state-and-exception
    monad.  Calls into [random], NumPy, NLTK, gensim and scikit-learn are
    taken through interfaces that record the documented behaviour the
    notebooks rely on.  [print] only writes to the notebook's output area and
    is left out. *)

From Stdlib Require Import ZArith QArith Lia.
From Stdlib Require Import Strings.String Strings.Ascii.
From stdpp Require Import base option list gmap strings sorting.
From stdpp Require Import pretty.

Local Open Scope Z_scope.
Local Open Scope nat_scope.
Close Scope Q_scope.

(** ** Python strings *)

(** A [str] is a sequence of Unicode code points. *)
Abbreviation str := (list N).

(** String literals of the development, for ASCII text. *)
Definition lit (s : string) : str :=
  (fun a => N_of_ascii a) <$> list_ascii_of_string s.

(** [str.isspace] on one code point: the code points CPython treats as
    whitespace. *)
Definition isspace (c : N) : bool :=
  ((9 <=? c) && (c <=? 13) || (28 <=? c) && (c <=? 32)
   || (c =? 133) || (c =? 160) || (c =? 5760)
   || (8192 <=? c) && (c <=? 8202)
   || (c =? 8232) || (c =? 8233) || (c =? 8239) || (c =? 8287)
   || (c =? 12288))%N.

Fixpoint lstrip (s : str) : str :=
  match s with
  | c :: s' => if isspace c then lstrip s' else s
  | [] => []
  end.

Definition rstrip (s : str) : str := reverse (lstrip (reverse s)).

(** [s.strip()] *)
Definition strip (s : str) : str := rstrip (lstrip s).

(** Code-point order on strings, the order [sorted] uses. *)
Fixpoint str_leb (s t : str) : bool :=
  match s, t with
  | [], _ => true
  | _ :: _, [] => false
  | a :: s', b :: t' => (a <? b)%N || (a =? b)%N && str_leb s' t'
  end.

Definition str_le (s t : str) : Prop := str_leb s t = true.

#[export] Instance str_le_dec : RelDecision str_le.
Proof. intros s t. unfold str_le. apply _. Defined.

(** ** Exceptions *)

(** The key of a failed dictionary lookup: a label or an index. *)
Inductive key : Type :=
| KStr (s : str)
| KInt (i : nat).

Inductive exn : Type :=
| FileNotFoundError (path : string)
| ValueError
| TypeError
| IndexError
| KeyError (k : key)
| NameError (name : string).

Definition result (A : Type) : Type := (exn + A)%type.

Definition ok {A} (a : A) : result A := inr a.
Definition throw {A} (e : exn) : result A := inl e.

Definition result_bind {A B} (r : result A) (k : A -> result B) : result B :=
  match r with
  | inl e => inl e
  | inr a => k a
  end.

(** [[f x for x in l]] where [f] may raise: the first exception aborts. *)
Fixpoint result_map {A B} (f : A -> result B) (l : list A) : result (list B) :=
  match l with
  | [] => ok []
  | x :: l' =>
      result_bind (f x) (fun y =>
      result_bind (result_map f l') (fun ys => ok (y :: ys)))
  end.

(** [l[i]] for a non-negative index. *)
Definition getitem {A} (l : list A) (i : nat) : result A :=
  match l !! i with
  | Some x => ok x
  | None => throw IndexError
  end.

(** ** The [random] module

    [random.seed(a)] replaces the state of the shared generator by one that
    depends on [a] only; [random.sample(range(n), k)] draws from the shared
    generator and advances it.  The generator itself (the Mersenne Twister)
    is not part of the notebooks, so the development is parametric in it and
    relies on what the library documents for [sample]: a [ValueError] when
    [k] is negative or larger than the population, and otherwise [k]
    positions of the population, none chosen twice. *)

Class PyRandom : Type := {
  rng : Type;
  seed : Z -> rng;
  sample_range : rng -> nat -> Z -> result (list nat) * rng
}.

Class PyRandomLaws (random_module : PyRandom) : Prop := {
  sample_range_error : forall g n k,
    (k < 0 \/ Z.of_nat n < k)%Z ->
    (sample_range g n k).1 = throw ValueError;
  sample_range_ok : forall g n k,
    (0 <= k <= Z.of_nat n)%Z ->
    exists idx, (sample_range g n k).1 = ok idx
      /\ length idx = Z.to_nat k
      /\ NoDup idx
      /\ Forall (fun i => i < n) idx
}.

(** ** Numerical and NLP libraries

    Floating-point numbers, Unicode case mapping, NLTK's tokenizer and
    gensim's training are used as black boxes.  [column_means] is NumPy's
    mean over axis 0 of a non-empty stack of rows. *)

Class Libraries : Type := {
  float64 : Type;
  nan : float64;
  column_means : list (list float64) -> list float64;
  lower : str -> str;
  word_tokenize : str -> list str;
  (** [Word2Vec(sentences, ...)] followed by [build_vocab] and [train]:
      the vocabulary [model.wv.index_to_key] and the lookup [model.wv[word]].
      Training is taken to succeed; what gensim raises on a corpus with an
      empty vocabulary is not modelled. *)
  Word2Vec_index_to_key : list str -> list str;
  Word2Vec_wv : list str -> str -> list float64
}.

Section Notebook.
Context {random_module : PyRandom} {libraries : Libraries}.

(** ** Interpreter state *)

(** The files on disk (as [readlines] returns them: one [str] per line,
    line terminator included), the state of the generator shared by the
    functions of [random], and the binding of the notebook-level name
    [word2vec] ([None] while the name is not defined). *)
Record world : Type := World {
  files : gmap string (list str);
  generator : rng;
  global_word2vec : option (gmap str (list float64))
}.

(** Computations that read and update the interpreter state and may raise. *)
Definition M (A : Type) : Type := world -> result A * world.

Definition ret {A} (a : A) : M A := fun w => (ok a, w).
Definition lift {A} (r : result A) : M A := fun w => (r, w).

Definition bind {A B} (m : M A) (k : A -> M B) : M B :=
  fun w =>
    match m w with
    | (inl e, w') => (inl e, w')
    | (inr a, w') => k a w'
    end.

Notation "x <- m ;; k" := (bind m (fun x => k))
  (at level 100, m at next level, right associativity).
Notation "m ;;; k" := (bind m (fun _ => k))
  (at level 100, right associativity).

(** [with open(filepath, 'r', encoding='utf-8') as file: file.readlines()].
    [files] holds the regular files that decode as UTF-8; what [open] and
    [readlines] raise on a directory or on undecodable bytes is not
    modelled. *)
Definition readlines (filepath : string) : M (list str) :=
  fun w =>
    match files w !! filepath with
    | Some lines => (ok lines, w)
    | None => (throw (FileNotFoundError filepath), w)
    end.

(** [random.seed(a)] *)
Definition random_seed (a : Z) : M unit :=
  fun w => (ok tt, World (files w) (seed a) (global_word2vec w)).

(** [random.sample(range(n), k)] *)
Definition random_sample_range (n : nat) (k : Z) : M (list nat) :=
  fun w =>
    let '(r, g) := sample_range (generator w) n k in
    (r, World (files w) g (global_word2vec w)).

(** ** Deterministic sampler *)

(** [lines[i].strip()] *)
Definition strip_line (lines : list str) (i : nat) : result str :=
  result_bind (getitem lines i) (fun l => ok (strip l)).

Definition load_data_sample (filepath : string) (sample_size : Z)
    (random_state : Z) : M (list str) :=
  lines <- readlines filepath ;;
  random_seed random_state ;;;
  sampled_indices <- random_sample_range (length lines) sample_size ;;
  lift (result_map (strip_line lines) sampled_indices).

(** [picks lines i out]: [out] is line number [i] of [lines], stripped. *)
Definition picks (lines : list str) (i : nat) (out : str) : Prop :=
  strip <$> lines !! i = Some out.

(** The default of the [random_state] argument, and the defaults of the
    sample sizes of [load_datasets]. *)
Definition default_random_state : Z := 42.
Definition default_train_sample_size : Z := 25000.
Definition default_test_sample_size : Z := 10000.

Definition load_datasets
    (train_data_path train_labels_path test_data_path test_labels_path : string)
    (train_sample_size test_sample_size : Z)
  : M (list str * list str * list str * list str) :=
  X_train <- load_data_sample train_data_path train_sample_size
               default_random_state ;;
  y_train <- load_data_sample train_labels_path train_sample_size
               default_random_state ;;
  X_test <- load_data_sample test_data_path test_sample_size
              default_random_state ;;
  y_test <- load_data_sample test_labels_path test_sample_size
              default_random_state ;;
  ret (X_train, y_train, X_test, y_test).

(** ** Label indexer (BERT notebook) *)

(** [set(l)] *)
Definition py_set (l : list str) : gset str := list_to_set l.

(** [sorted(s)] for a set of strings. *)
Definition sorted (s : gset str) : list str := merge_sort str_le (elements s).

(** [enumerate(l)] *)
Definition enumerate {A} (l : list A) : list (nat * A) := imap pair l.

(** [{lang: idx for idx, lang in enumerate(labels)}] *)
Definition index_dict (labels : list str) : gmap str nat :=
  foldl (fun d p => <[p.2 := p.1]> d) ∅ (enumerate labels).

(** [all_labels = sorted(set(y_train) | set(y_test))] *)
Definition all_labels (y_train y_test : list str) : list str :=
  sorted (py_set y_train ∪ py_set y_test).

Definition lang2idx (y_train y_test : list str) : gmap str nat :=
  index_dict (all_labels y_train y_test).

(** [d[k]] on a dictionary keyed by labels. *)
Definition getitem_str {V} (d : gmap str V) (k : str) : result V :=
  match d !! k with
  | Some v => ok v
  | None => throw (KeyError (KStr k))
  end.

(** [d[k]] on a dictionary keyed by indices. *)
Definition getitem_int {V} (d : gmap nat V) (k : nat) : result V :=
  match d !! k with
  | Some v => ok v
  | None => throw (KeyError (KInt k))
  end.

(** [encode_labels], with the global [lang2idx] it reads made explicit. *)
Definition encode_labels (lang2idx : gmap str nat) (labels : list str)
  : result (list nat) :=
  result_map (fun lang => getitem_str lang2idx lang) labels.

(** [unique_labels = sorted(set(y_train))] *)
Definition unique_labels (y_train : list str) : list str :=
  sorted (py_set y_train).

Definition label_to_index (y_train : list str) : gmap str nat :=
  index_dict (unique_labels y_train).

(** [{idx: label for label, idx in label_to_index.items()}] *)
Definition invert (d : gmap str nat) : gmap nat str :=
  foldl (fun m p => <[p.2 := p.1]> m) ∅ (map_to_list d).

Definition index_to_language (y_train : list str) : gmap nat str :=
  invert (label_to_index y_train).

(** The last step of [predict]: [index_to_language[prediction_index]]. *)
Definition decode (index_to_language : gmap nat str) (prediction_index : nat)
  : result str :=
  getitem_int index_to_language prediction_index.

(** ** Classical pipelines (TF-IDF / Word2Vec notebook) *)

Inductive ndarray : Type :=
| Array1D (v : list float64)
| Array2D (rows : list (list float64)).

(** What the notebook hands to scikit-learn as [X]. *)
Inductive pyobj : Type :=
| Texts (X : list str)
| WordVectors (d : gmap str (list float64))
| Array (a : ndarray).

(** A fitted scikit-learn estimator, seen through [model.predict]. *)
Record estimator : Type := Estimator {
  predict : pyobj -> result (list str)
}.

(** [GridSearchCV(...).fit(X, y).best_estimator_] and
    [Pipeline(...).fit(X, y)]. *)
Variable GridSearchCV_fit : pyobj -> list str -> result estimator.
Variable Pipeline_fit : pyobj -> list str -> result estimator.

(** [np.mean(a, axis=0, keepdims=True)] for a list of vectors: one row of
    column means, or for the empty list the one-dimensional [[nan]]. *)
Definition np_mean_axis0_keepdims (a : list (list float64)) : ndarray :=
  match a with
  | [] => Array1D [nan]
  | _ :: _ => Array2D [column_means a]
  end.

Definition word2vec_transform (sentences : list str)
  : gmap str (list float64) :=
  foldl (fun d word => <[word := Word2Vec_wv sentences word]> d) ∅
        (Word2Vec_index_to_key sentences).

(** Evaluating the free name [word2vec]. *)
Definition load_global_word2vec : M (gmap str (list float64)) :=
  fun w =>
    match global_word2vec w with
    | Some d => (ok d, w)
    | None => (throw (NameError "word2vec"), w)
    end.

(** [[word2vec[word] for word in tokenized_text if word in word2vec]]:
    the name [word2vec] is evaluated inside the loop, once per token. *)
Fixpoint known_vectors (tokenized_text : list str) : M (list (list float64)) :=
  match tokenized_text with
  | [] => ret []
  | word :: rest =>
      word2vec <- load_global_word2vec ;;
      match word2vec !! word with
      | Some v => vs <- known_vectors rest ;; ret (v :: vs)
      | None => known_vectors rest
      end
  end.

(** [predict_language]; the result [None] is Python's [None]. *)
Definition predict_language (text : str) (model : estimator)
    (vectorizer_type : string) : M (option str) :=
  if String.eqb vectorizer_type "word2vec" then
    let tokenized_text := word_tokenize (lower text) in
    vectors <- known_vectors tokenized_text ;;
    let transformed_text := np_mean_axis0_keepdims vectors in
    predicted <- lift (predict model (Array transformed_text)) ;;
    first <- lift (getitem predicted 0) ;;
    ret (Some first)
  else ret None.

Definition train_and_tune_model (X_train y_train : list str)
    (vectorizer_type : string) : M (option estimator) :=
  if String.eqb vectorizer_type "tfidf" then
    best_estimator <- lift (GridSearchCV_fit (Texts X_train) y_train) ;;
    ret (Some best_estimator)
  else if String.eqb vectorizer_type "word2vec" then
    let X_train_transformed := word2vec_transform X_train in
    pipeline <- lift (Pipeline_fit (WordVectors X_train_transformed) y_train) ;;
    ret (Some pipeline)
  else ret None.

(** A Python float, as far as the evaluator needs it. *)
Inductive pyfloat : Type :=
| NaN
| Real (q : Q).

Fixpoint count_equal (y_true y_pred : list str) : nat :=
  match y_true, y_pred with
  | a :: y_true', b :: y_pred' =>
      (if decide (a = b) then 1 else 0) + count_equal y_true' y_pred'
  | _, _ => 0
  end.

(** The list of labels, when no entry is [None]. *)
Fixpoint all_labels_of (y_pred : list (option str)) : option (list str) :=
  match y_pred with
  | [] => Some []
  | Some l :: rest => cons l <$> all_labels_of rest
  | None :: _ => None
  end.

(** [sklearn.metrics.accuracy_score(y_true, y_pred)]: inputs of different
    lengths or predictions that are not labels are rejected; the score of
    an empty sample is [nan]; otherwise it is the fraction of positions
    where the two agree. *)
Definition accuracy_score (y_true : list str) (y_pred : list (option str))
  : result pyfloat :=
  if negb (length y_true =? length y_pred) then throw ValueError
  else match y_true with
       | [] => ok NaN
       | _ :: _ =>
           match all_labels_of y_pred with
           | None => throw ValueError
           | Some labels =>
               ok (Real (Z.of_nat (count_equal y_true labels)
                         # Pos.of_nat (length y_true)))
           end
       end.

(** The number of positions at which two label sequences agree. *)
Definition agreements (y_true y_pred : list str) : nat :=
  length (filter (fun i => y_true !! i = y_pred !! i)
                 (seq 0 (length y_true))).

(** scikit-learn estimators validate their input: a one-dimensional array
    is refused with [ValueError] ("Expected 2D array, got 1D array
    instead"). *)
Definition validates_input (model : estimator) : Prop :=
  forall v, predict model (Array (Array1D v)) = throw ValueError.

(** [len(X)] *)
Definition len (X : pyobj) : nat :=
  match X with
  | Texts X => length X
  | WordVectors d => size d
  | Array (Array1D v) => length v
  | Array (Array2D rows) => length rows
  end.

(** The loop of [predict_and_evaluate]. *)
Fixpoint predict_each (X : list str) (model : estimator)
    (vectorizer_type : string) : M (list (option str)) :=
  match X with
  | [] => ret []
  | text :: rest =>
      p <- predict_language text model vectorizer_type ;;
      predictions <- predict_each rest model vectorizer_type ;;
      ret (p :: predictions)
  end.

Definition predict_and_evaluate (X y : list str) (model : estimator)
    (vectorizer_type : string) : M pyfloat :=
  predictions <- predict_each X model vectorizer_type ;;
  accuracy <- lift (accuracy_score y predictions) ;;
  ret accuracy.

(** ** Other cells of the two notebooks *)

(** [l[i]] for an integer index: a negative index counts from the end.
    The index is taken to fit a machine integer; what a tensor raises on a
    larger one is not modelled. *)
Definition lookup_Z {A} (l : list A) (i : Z) : option A :=
  if (i <? 0)%Z then
    if (i + Z.of_nat (length l) <? 0)%Z then None
    else l !! Z.to_nat (i + Z.of_nat (length l))
  else l !! Z.to_nat i.

Definition getitem_Z {A} (l : list A) (i : Z) : result A :=
  match lookup_Z l i with
  | Some x => ok x
  | None => throw IndexError
  end.

(** What [torch.tensor] wraps in [__getitem__]: one row of an encoding, or
    one label. *)
Inductive tensor : Type :=
| Row (ids : list Z)
| Scalar (value : nat).

(** [LanguageDataset.__init__] stores its two arguments: the tokenizer's
    fields (each a list of rows) and the encoded labels. *)
Record LanguageDataset : Type := {
  encodings : gmap string (list (list Z));
  labels : list nat
}.

(** [LanguageDataset.__getitem__]: the dictionary comprehension over
    [self.encodings.items()], then the entry ['labels']. *)
Definition LanguageDataset_getitem (self : LanguageDataset) (idx : Z)
  : result (gmap string tensor) :=
  result_bind
    (result_map
       (fun kv : string * list (list Z) =>
          result_bind (getitem_Z kv.2 idx) (fun row => ok (kv.1, Row row)))
       (map_to_list (encodings self)))
    (fun item =>
       result_bind (getitem_Z (labels self) idx)
         (fun label =>
            ok (<["labels" := Scalar label]>
                  (list_to_map item : gmap string tensor)))).

(** [LanguageDataset.__len__] *)
Definition LanguageDataset_len (self : LanguageDataset) : nat :=
  length (labels self).

(** [LanguageDataset(encodings[:n], labels[:n])], as in the cell that builds
    [small_train_dataset]: slicing the tokenizer's output slices each
    field. *)
Definition sliced_dataset (n : nat) (encodings : gmap string (list (list Z)))
    (labels : list nat) : LanguageDataset :=
  {| encodings := take n <$> encodings; labels := take n labels |}.

(** The characters [re.sub(r'[^a-z\s]', '', text)] keeps. *)
Definition kept (c : N) : bool := ((97 <=? c) && (c <=? 122))%N || isspace c.

(** [preprocess_text] *)
Definition preprocess_text (text : str) : str :=
  filter (fun c => kept c = true) (lower text).

(** [EpochLogger]: the object, [__init__], and [on_epoch_end], which
    returns the line it prints and the updated object. *)
Record EpochLogger : Type := { epoch : nat }.

Definition EpochLogger_init : EpochLogger := {| epoch := 0 |}.

Definition on_epoch_end (self : EpochLogger) : str * EpochLogger :=
  (lit ("Epoch " +:+ pretty (epoch self) +:+ " completed"),
   {| epoch := epoch self + 1 |}).

(** The callback invoked at the end of each of [n] epochs in a row. *)
Fixpoint after_epochs (n : nat) (self : EpochLogger)
  : list str * EpochLogger :=
  match n with
  | 0 => ([], self)
  | S n' =>
      let r := on_epoch_end self in
      let rest := after_epochs n' r.2 in
      (r.1 :: rest.1, rest.2)
  end.

(** A string that neither starts nor ends with whitespace. *)
Definition no_outer_space (s : str) : Prop :=
  (forall c, head s = Some c -> isspace c = false)
  /\ (forall c, last s = Some c -> isspace c = false).

End Notebook.

(** * Reference instances

    Small executable stand-ins for the libraries, and a few interpreter
    states, on which the notebook functions can be run. *)

Module Reference.

(** A linear congruential generator in place of the Mersenne Twister. *)
Definition lcg_next (g : N) : N :=
  ((1103515245 * g + 12345) mod 2147483648)%N.

(** [randbelow(n)] *)
Definition randbelow (n : nat) (g : N) : nat * N :=
  (N.to_nat (lcg_next g / 65536) mod n, lcg_next g).

(** The selection loop CPython's [sample] runs on small populations, at
    the point where [remaining] items of [pool] are still unselected:
    [j = randbelow(n - i); result[i] = pool[j]; pool[j] = pool[n - i - 1]]. *)
Fixpoint pool_select (k remaining : nat) (pool : list nat) (g : N)
  : list nat * N :=
  match k with
  | 0 => ([], g)
  | S k' =>
      let j := (randbelow remaining g).1 in
      let chosen := default 0 (pool !! j) in
      let pool' := <[j := default 0 (pool !! (remaining - 1))]> pool in
      let rest :=
        pool_select k' (remaining - 1) pool' (randbelow remaining g).2 in
      (chosen :: rest.1, rest.2)
  end.

Definition sample (g : N) (n : nat) (k : Z) : result (list nat) * N :=
  if ((k <? 0) || (Z.of_nat n <? k))%Z then (throw ValueError, g)
  else let r := pool_select (Z.to_nat k) n (seq 0 n) g in (ok r.1, r.2).

Definition lcg_random : PyRandom :=
  {| rng := N; seed a := Z.to_N (Z.abs a); sample_range := sample |}.

(** Lower-casing of the ASCII letters. *)
Definition ascii_lower (s : str) : str :=
  (fun c => if ((65 <=? c) && (c <=? 90))%N then (c + 32)%N else c) <$> s.

(** Tokens are the maximal runs of non-space characters; [current] is the
    run being read, last character first. *)
Fixpoint split_whitespace (s current : str) : list str :=
  match s with
  | [] => match current with [] => [] | _ :: _ => [reverse current] end
  | c :: s' =>
      if isspace c then
        match current with
        | [] => split_whitespace s' []
        | _ :: _ => reverse current :: split_whitespace s' []
        end
      else split_whitespace s' (c :: current)
  end.

(** Rationals with a not-a-number value in place of floats. *)
Definition add_rows (a b : list (option Q)) : list (option Q) :=
  zip_with (fun x y => match x, y with
                       | Some p, Some q => Some (Qred (p + q))
                       | _, _ => None
                       end) a b.

Definition rational_column_means (rows : list (list (option Q)))
  : list (option Q) :=
  match rows with
  | [] => []
  | r :: rs =>
      (fun x : option Q =>
         (fun q => Qred (q / inject_Z (Z.of_nat (length rows)))) <$> x)
        <$> foldl add_rows r rs
  end.

(** A sentence given as a [str] is read character by character: the
    vocabulary is the set of characters of the corpus, and the vector of a
    character is its code point. *)
Definition characters (sentences : list str) : list str :=
  remove_dups ((fun c => [c]) <$> concat sentences).

Definition code_point_vector (sentences : list str) (word : str)
  : list (option Q) :=
  match word with
  | c :: _ => [Some (inject_Z (Z.of_N c))]
  | [] => [None]
  end.

Definition simple_libraries : Libraries :=
  {| float64 := option Q;
     nan := None;
     column_means := rational_column_means;
     lower := ascii_lower;
     word_tokenize s := split_whitespace s [];
     Word2Vec_index_to_key := characters;
     Word2Vec_wv := code_point_vector |}.

Abbreviation world := (@world lcg_random simple_libraries).
Abbreviation estimator := (@estimator simple_libraries).
Abbreviation pyobj := (@pyobj simple_libraries).

(** An estimator that validates its input the way scikit-learn does and
    classifies a row by its first column. *)
Definition classify (row : list (option Q)) : str :=
  match row with
  | Some q :: _ => if Qle_bool q (inject_Z 100) then lit "eng" else lit "fra"
  | _ => lit "und"
  end.

Definition threshold_model : estimator :=
  @Estimator simple_libraries (fun X =>
    match X with
    | Array (Array2D rows) => ok (classify <$> rows)
    | Array (Array1D _) => throw ValueError
    | _ => throw TypeError
    end).

(** [fit] accepts a two-dimensional array with one row per label. *)
Definition fit (X : pyobj) (y : list str) : result estimator :=
  match X with
  | Array (Array2D rows) =>
      if length rows =? length y then ok threshold_model
      else throw ValueError
  | _ => throw TypeError
  end.

(** Four small files; every line ends with a line feed. *)
Definition line (s : string) : str := lit s ++ [10%N].

Definition x_train_lines : list str :=
  [line "hello world"; line "bonjour le monde"; line "  good morning";
   line "bonne nuit"].

Definition y_train_lines : list str :=
  [line "eng"; line "fra"; line "eng"; line "fra"].

Definition x_test_lines : list str :=
  [line "hello there"; line "au revoir"; line "merci"].

Definition y_test_lines : list str :=
  [line "eng"; line "fra"; line "fra"].

Definition disk : gmap string (list str) :=
  <["x_train.txt" := x_train_lines]>
  (<["y_train.txt" := y_train_lines]>
  (<["x_test.txt" := x_test_lines]>
  (<["y_test.txt" := y_test_lines]> ∅))).

(** The notebook as written: nothing binds [word2vec]. *)
Definition fresh_world : world :=
  @World lcg_random simple_libraries disk 0%N None.

(** The same, after the shared generator has been used. *)
Definition used_world : world :=
  @World lcg_random simple_libraries disk 2024%N None.

(** A session in which [word2vec] has been bound by hand. *)
Definition embeddings : gmap str (list (option Q)) :=
  <[lit "hello" := [Some (inject_Z 1)]]>
  (<[lit "bonjour" := [Some (inject_Z 200)]]> ∅).

Definition session_world : world :=
  @World lcg_random simple_libraries disk 0%N (Some embeddings).

(** A duck-typed model that answers ["eng"] to everything. *)
Definition constant_model : estimator :=
  @Estimator simple_libraries (fun _ => ok [lit "eng"]).

(** Five evaluation samples, their labels, and what [threshold_model]
    predicts for them in [session_world]. *)
Definition eval_texts : list str :=
  [lit "hello"; lit "bonjour"; lit "Hello hello"; lit "bonjour"; lit "hello"].

Definition eval_labels : list str :=
  [lit "eng"; lit "fra"; lit "eng"; lit "eng"; lit "fra"].

Definition eval_predictions : list str :=
  [lit "eng"; lit "fra"; lit "eng"; lit "fra"; lit "eng"].

(** A tokenized corpus of three samples with its encoded labels. *)
Definition token_rows : gmap string (list (list Z)) :=
  <["input_ids" :=
      [[101; 31178; 102]; [101; 11317; 102]; [101; 15198; 102]]%Z]>
  (<["attention_mask" := [[1; 1; 1]; [1; 1; 1]; [1; 1; 1]]%Z]> ∅).

Definition encoded_labels : list nat := [0; 1; 0].

Definition small_corpus : LanguageDataset :=
  {| encodings := token_rows; labels := encoded_labels |}.

End Reference.

(** * Properties *)

Section NotebookProperties.
Context {random_module : PyRandom} {random_laws : PyRandomLaws random_module}
        {libraries : Libraries}.
Variable GridSearchCV_fit : pyobj -> list str -> result estimator.
Variable Pipeline_fit : pyobj -> list str -> result estimator.

(** ** Deterministic sampler *)

Lemma strip_lines_in_range (lines : list str) (idx : list nat) :
  Forall (fun i => i < length lines) idx ->
  exists out, result_map (strip_line lines) idx = ok out
              /\ Forall2 (picks lines) idx out.
Proof.
  induction 1 as [|i idx Hi _ [out [Hout Hpicks]]].
  - exists []. split; [reflexivity | constructor].
  - destruct (lookup_lt_is_Some_2 lines i Hi) as [l Hl].
    exists (strip l :: out). split.
    + cbn. unfold strip_line at 1, getitem. rewrite Hl. cbn.
      rewrite Hout. reflexivity.
    + constructor; [|exact Hpicks]. unfold picks. rewrite Hl. reflexivity.
Qed.

(** Once the file has been read, the call only depends on the seed, the
    number of lines and the count: the generator found in the interpreter
    is overwritten before it is used. *)
Lemma load_data_sample_run w filepath lines sample_size random_state :
  files w !! filepath = Some lines ->
  load_data_sample filepath sample_size random_state w =
    (result_bind (sample_range (seed random_state) (length lines) sample_size).1
                 (result_map (strip_line lines)),
     World (files w)
           (sample_range (seed random_state) (length lines) sample_size).2
           (global_word2vec w)).
Proof.
  intros Hfile.
  unfold load_data_sample, bind, readlines, random_seed, random_sample_range,
    lift.
  rewrite Hfile. cbn.
  destruct (sample_range (seed random_state) (length lines) sample_size)
    as [[e|idx] g]; reflexivity.
Qed.

Lemma load_data_sample_missing w filepath sample_size random_state :
  files w !! filepath = None ->
  load_data_sample filepath sample_size random_state w =
    (throw (FileNotFoundError filepath), w).
Proof.
  intros Hfile. unfold load_data_sample, bind, readlines. rewrite Hfile.
  reflexivity.
Qed.

(** The sampler does not touch the files or the global [word2vec]. *)
Lemma load_data_sample_files w filepath sample_size random_state :
  files (load_data_sample filepath sample_size random_state w).2 = files w.
Proof.
  destruct (files w !! filepath) as [lines|] eqn:Hfile.
  - rewrite (load_data_sample_run _ _ _ _ _ Hfile). reflexivity.
  - rewrite (load_data_sample_missing _ _ _ _ Hfile). reflexivity.
Qed.

Lemma load_data_sample_word2vec w filepath sample_size random_state :
  global_word2vec (load_data_sample filepath sample_size random_state w).2
    = global_word2vec w.
Proof.
  destruct (files w !! filepath) as [lines|] eqn:Hfile.
  - rewrite (load_data_sample_run _ _ _ _ _ Hfile). reflexivity.
  - rewrite (load_data_sample_missing _ _ _ _ Hfile). reflexivity.
Qed.

Lemma load_datasets_word2vec
    w train_data_path train_labels_path test_data_path test_labels_path
    train_sample_size test_sample_size :
  global_word2vec
    (load_datasets train_data_path train_labels_path test_data_path
       test_labels_path train_sample_size test_sample_size w).2
    = global_word2vec w.
Proof.
  unfold load_datasets, bind, ret.
  pose proof (load_data_sample_word2vec w train_data_path train_sample_size
                default_random_state) as H1.
  destruct (load_data_sample train_data_path train_sample_size
              default_random_state w) as [[e|X_train] w1]; [exact H1|].
  pose proof (load_data_sample_word2vec w1 train_labels_path
                train_sample_size default_random_state) as H2.
  destruct (load_data_sample train_labels_path train_sample_size
              default_random_state w1) as [[e|y_train] w2];
    [cbn in *; congruence|].
  pose proof (load_data_sample_word2vec w2 test_data_path test_sample_size
                default_random_state) as H3.
  destruct (load_data_sample test_data_path test_sample_size
              default_random_state w2) as [[e|X_test] w3];
    [cbn in *; congruence|].
  pose proof (load_data_sample_word2vec w3 test_labels_path test_sample_size
                default_random_state) as H4.
  destruct (load_data_sample test_labels_path test_sample_size
              default_random_state w3) as [[e|y_test] w4];
    cbn in *; congruence.
Qed.

Lemma load_data_sample_in_range w filepath lines sample_size random_state :
  files w !! filepath = Some lines ->
  (0 <= sample_size <= Z.of_nat (length lines))%Z ->
  exists idx out,
    (sample_range (seed random_state) (length lines) sample_size).1 = ok idx
    /\ (load_data_sample filepath sample_size random_state w).1 = ok out
    /\ length idx = Z.to_nat sample_size
    /\ NoDup idx
    /\ Forall2 (picks lines) idx out.
Proof.
  intros Hfile Hrange.
  destruct (sample_range_ok (seed random_state) (length lines) sample_size
              Hrange) as (idx & Hidx & Hlen & Hnodup & Hlt).
  destruct (strip_lines_in_range lines idx Hlt) as (out & Hout & Hpicks).
  exists idx, out. repeat split; try assumption.
  rewrite (load_data_sample_run _ _ _ _ _ Hfile). cbn.
  rewrite Hidx. exact Hout.
Qed.

(** C4. Sampling the same corpus twice with the same seed and the same
    count gives the same output sequence, whatever state the shared
    generator was left in before each call: the two results agree, and for a
    count between 0 and the number of lines both are the same list of
    stripped lines. *)
Theorem load_data_sample_deterministic
    w1 w2 filepath lines sample_size random_state :
  files w1 !! filepath = Some lines ->
  files w2 !! filepath = Some lines ->
  (sample_size <= Z.of_nat (length lines))%Z ->
  (load_data_sample filepath sample_size random_state w1).1
    = (load_data_sample filepath sample_size random_state w2).1
  /\ ((0 <= sample_size)%Z ->
      exists out,
        (load_data_sample filepath sample_size random_state w1).1 = ok out
        /\ (load_data_sample filepath sample_size random_state w2).1 = ok out
        /\ length out = Z.to_nat sample_size).
Proof.
  intros Hf1 Hf2 Hle.
  assert (Heq : (load_data_sample filepath sample_size random_state w1).1
    = (load_data_sample filepath sample_size random_state w2).1).
  { rewrite (load_data_sample_run _ _ _ _ _ Hf1),
      (load_data_sample_run _ _ _ _ _ Hf2). reflexivity. }
  split; [exact Heq|]. intros Hnonneg.
  destruct (load_data_sample_in_range w1 filepath lines sample_size
              random_state Hf1 (conj Hnonneg Hle))
    as (idx & out & _ & Hout & Hlen & _ & Hpicks).
  exists out. rewrite <- Heq. repeat split; try assumption.
  rewrite <- Hlen. symmetry. exact (Forall2_length _ _ _ Hpicks).
Qed.

(** The second of two calls in a row sees the generator the first one left
    behind, and still returns what the first one returned. *)
Lemma load_data_sample_twice w filepath sample_size random_state :
  (load_data_sample filepath sample_size random_state
     (load_data_sample filepath sample_size random_state w).2).1
  = (load_data_sample filepath sample_size random_state w).1.
Proof.
  pose proof (load_data_sample_files w filepath sample_size random_state)
    as Hfiles.
  destruct (files w !! filepath) as [lines|] eqn:Hfile.
  - rewrite (load_data_sample_run
               (load_data_sample filepath sample_size random_state w).2
               filepath lines) by (rewrite Hfiles; exact Hfile).
    rewrite (load_data_sample_run w _ _ _ _ Hfile). reflexivity.
  - rewrite (load_data_sample_missing
               (load_data_sample filepath sample_size random_state w).2)
      by (rewrite Hfiles; exact Hfile).
    rewrite (load_data_sample_missing w _ _ _ Hfile). reflexivity.
Qed.

(** C5. A count larger than the number of lines of the file raises
    [ValueError]; a count between 0 and the number of lines returns exactly
    that many records, taken (and stripped) from pairwise distinct line
    numbers of the file. *)
Theorem load_data_sample_count w filepath lines sample_size random_state :
  files w !! filepath = Some lines ->
  ((Z.of_nat (length lines) < sample_size)%Z ->
     (load_data_sample filepath sample_size random_state w).1
       = throw ValueError)
  /\ ((0 <= sample_size <= Z.of_nat (length lines))%Z ->
      exists idx out,
        (load_data_sample filepath sample_size random_state w).1 = ok out
        /\ Z.of_nat (length out) = sample_size
        /\ NoDup idx
        /\ Forall2 (picks lines) idx out).
Proof.
  intros Hfile. split.
  - intros Hlarge. rewrite (load_data_sample_run _ _ _ _ _ Hfile). cbn.
    rewrite sample_range_error by (right; exact Hlarge). reflexivity.
  - intros Hrange.
    destruct (load_data_sample_in_range w filepath lines sample_size
                random_state Hfile Hrange)
      as (idx & out & _ & Hout & Hlen & Hnodup & Hpicks).
    exists idx, out. repeat split; try assumption.
    rewrite <- (Forall2_length _ _ _ Hpicks), Hlen. lia.
Qed.

(** A negative count is rejected as well. *)
Lemma load_data_sample_negative w filepath lines sample_size random_state :
  files w !! filepath = Some lines ->
  (sample_size < 0)%Z ->
  (load_data_sample filepath sample_size random_state w).1 = throw ValueError.
Proof.
  intros Hfile Hneg. rewrite (load_data_sample_run _ _ _ _ _ Hfile). cbn.
  rewrite sample_range_error by (left; exact Hneg). reflexivity.
Qed.

(** C9. When a text file and its label file have the same number of lines,
    the texts and the labels returned by [load_datasets] come from the same
    line numbers, position by position: the list of line numbers that
    [random.sample] draws after seeding with 42 (as many as requested, none
    twice) serves both members of the training pair, and the one drawn for
    the test count both members of the test pair. *)
Theorem load_datasets_aligned
    w train_data_path train_labels_path test_data_path test_labels_path
    (train_data train_labels test_data test_labels : list str)
    train_sample_size test_sample_size :
  files w !! train_data_path = Some train_data ->
  files w !! train_labels_path = Some train_labels ->
  files w !! test_data_path = Some test_data ->
  files w !! test_labels_path = Some test_labels ->
  length train_data = length train_labels ->
  length test_data = length test_labels ->
  (0 <= train_sample_size <= Z.of_nat (length train_data))%Z ->
  (0 <= test_sample_size <= Z.of_nat (length test_data))%Z ->
  exists train_idx test_idx X_train y_train X_test y_test,
    (load_datasets train_data_path train_labels_path test_data_path
       test_labels_path train_sample_size test_sample_size w).1
      = ok (X_train, y_train, X_test, y_test)
    /\ (sample_range (seed default_random_state) (length train_data)
          train_sample_size).1 = ok train_idx
    /\ (sample_range (seed default_random_state) (length test_data)
          test_sample_size).1 = ok test_idx
    /\ length train_idx = Z.to_nat train_sample_size
    /\ NoDup train_idx
    /\ length test_idx = Z.to_nat test_sample_size
    /\ NoDup test_idx
    /\ Forall2 (picks train_data) train_idx X_train
    /\ Forall2 (picks train_labels) train_idx y_train
    /\ Forall2 (picks test_data) test_idx X_test
    /\ Forall2 (picks test_labels) test_idx y_test.
Proof.
  intros Hxtr Hytr Hxte Hyte Hltr Hlte Hrtr Hrte.
  set (w1 := (load_data_sample train_data_path train_sample_size
                default_random_state w).2).
  set (w2 := (load_data_sample train_labels_path train_sample_size
                default_random_state w1).2).
  set (w3 := (load_data_sample test_data_path test_sample_size
                default_random_state w2).2).
  assert (Hf1 : files w1 = files w) by apply load_data_sample_files.
  assert (Hf2 : files w2 = files w).
  { unfold w2. rewrite load_data_sample_files. exact Hf1. }
  assert (Hf3 : files w3 = files w).
  { unfold w3. rewrite load_data_sample_files. exact Hf2. }
  destruct (load_data_sample_in_range w train_data_path train_data
              train_sample_size default_random_state Hxtr Hrtr)
    as (itr & X_train & Hitr & HX & Hlentr & Hndtr & HpX).
  destruct (load_data_sample_in_range w1 train_labels_path train_labels
              train_sample_size default_random_state)
    as (itr' & y_train & Hitr' & Hy & _ & _ & Hpy);
    [rewrite Hf1; exact Hytr | rewrite <- Hltr; exact Hrtr |].
  destruct (load_data_sample_in_range w2 test_data_path test_data
              test_sample_size default_random_state)
    as (ite & X_test & Hite & HXt & Hlente & Hndte & HpXt);
    [rewrite Hf2; exact Hxte | exact Hrte |].
  destruct (load_data_sample_in_range w3 test_labels_path test_labels
              test_sample_size default_random_state)
    as (ite' & y_test & Hite' & Hyt & _ & _ & Hpyt);
    [rewrite Hf3; exact Hyte | rewrite <- Hlte; exact Hrte |].
  rewrite <- Hltr, Hitr in Hitr'. injection Hitr' as <-.
  rewrite <- Hlte, Hite in Hite'. injection Hite' as <-.
  exists itr, ite, X_train, y_train, X_test, y_test.
  repeat split; try assumption.
  unfold load_datasets, bind, ret.
  destruct (load_data_sample train_data_path train_sample_size
              default_random_state w) as [r1 w1'] eqn:E1.
  cbn in HX. subst r1. change w1' with w1.
  destruct (load_data_sample train_labels_path train_sample_size
              default_random_state w1) as [r2 w2'] eqn:E2.
  cbn in Hy. subst r2. change w2' with w2.
  destruct (load_data_sample test_data_path test_sample_size
              default_random_state w2) as [r3 w3'] eqn:E3.
  cbn in HXt. subst r3. change w3' with w3.
  destruct (load_data_sample test_labels_path test_sample_size
              default_random_state w3) as [r4 w4'] eqn:E4.
  cbn in Hyt. subst r4. reflexivity.
Qed.

(** ** Label indexer *)

(** Dictionary comprehensions insert their items from left to right. *)
Lemma foldl_insert_notin {K V} `{Countable K}
    (ps : list (V * K)) (d : gmap K V) (k : K) :
  k ∉ ps.*2 ->
  foldl (fun d p => <[p.2 := p.1]> d) d ps !! k = d !! k.
Proof.
  revert d. induction ps as [|p ps IH]; intros d Hk; [reflexivity|].
  cbn in *. apply not_elem_of_cons in Hk as [Hne Hk].
  rewrite IH by exact Hk. apply lookup_insert_ne. congruence.
Qed.

Lemma foldl_insert_in {K V} `{Countable K}
    (ps : list (V * K)) (d : gmap K V) (k : K) (v : V) :
  NoDup ps.*2 -> (v, k) ∈ ps ->
  foldl (fun d p => <[p.2 := p.1]> d) d ps !! k = Some v.
Proof.
  revert d. induction ps as [|p ps IH]; intros d Hnd Hin.
  - by apply elem_of_nil in Hin.
  - cbn in *. apply NoDup_cons in Hnd as [Hp Hnd].
    apply elem_of_cons in Hin as [<-|Hin].
    + cbn in *. rewrite foldl_insert_notin by exact Hp.
      apply lookup_insert_eq.
    + apply IH; assumption.
Qed.

Lemma foldl_insert_Some {K V} `{Countable K}
    (ps : list (V * K)) (k : K) (v : V) :
  foldl (fun d p => <[p.2 := p.1]> d) (∅ : gmap K V) ps !! k = Some v ->
  (v, k) ∈ ps.
Proof.
  induction ps as [|p ps IH] using rev_ind; intros Hk.
  - cbn in Hk. by rewrite lookup_empty in Hk.
  - rewrite foldl_app in Hk. cbn in Hk. apply elem_of_app.
    destruct (decide (p.2 = k)) as [<-|Hne].
    + rewrite lookup_insert_eq in Hk. injection Hk as <-.
      right. destruct p. apply list_elem_of_singleton. reflexivity.
    + rewrite lookup_insert_ne in Hk by exact Hne. left. by apply IH.
Qed.

Lemma enumerate_snd {A} (l : list A) : (enumerate l).*2 = l.
Proof.
  unfold enumerate. rewrite fmap_imap.
  apply list_eq. intros i. rewrite list_lookup_imap. by destruct (l !! i).
Qed.

Lemma elem_of_enumerate {A} (l : list A) i x :
  (i, x) ∈ enumerate l <-> l !! i = Some x.
Proof.
  unfold enumerate. rewrite elem_of_lookup_imap. split.
  - intros (j & y & [= -> ->] & Hy). exact Hy.
  - intros Hx. eauto.
Qed.

Lemma str_le_total : Total str_le.
Proof.
  intros s. unfold str_le.
  induction s as [|a s IH]; intros [|b t]; cbn; auto.
  destruct (N.compare_spec a b) as [->|Hlt|Hgt].
  - rewrite N.ltb_irrefl, N.eqb_refl. cbn. apply IH.
  - left. apply N.ltb_lt in Hlt. by rewrite Hlt.
  - right. apply N.ltb_lt in Hgt. by rewrite Hgt.
Qed.

Lemma str_le_trans : Transitive str_le.
Proof.
  intros s. unfold str_le.
  induction s as [|a s IH]; intros [|b t] [|c u]; cbn; try done.
  rewrite !orb_true_iff, !andb_true_iff, !N.ltb_lt, !N.eqb_eq.
  intros [Hab|[-> Hst]] [Hbc|[-> Htu]].
  - left. lia.
  - left. exact Hab.
  - left. exact Hbc.
  - right. split; [reflexivity|]. by apply (IH t u).
Qed.

(** [sorted] returns its elements in ascending code-point order. *)
Lemma StronglySorted_sorted (s : gset str) : StronglySorted str_le (sorted s).
Proof.
  unfold sorted. apply StronglySorted_merge_sort.
  - apply str_le_trans.
  - apply str_le_total.
Qed.

Lemma elem_of_sorted (s : gset str) (l : str) : l ∈ sorted s <-> l ∈ s.
Proof.
  unfold sorted. rewrite merge_sort_Permutation. apply elem_of_elements.
Qed.

Lemma NoDup_sorted (s : gset str) : NoDup (sorted s).
Proof.
  unfold sorted. rewrite merge_sort_Permutation. apply NoDup_elements.
Qed.

Lemma elem_of_all_labels (y_train y_test : list str) (l : str) :
  l ∈ all_labels y_train y_test <-> l ∈ y_train \/ l ∈ y_test.
Proof.
  unfold all_labels, py_set.
  rewrite elem_of_sorted, elem_of_union, !elem_of_list_to_set. reflexivity.
Qed.

Lemma elem_of_unique_labels (y_train : list str) (l : str) :
  l ∈ unique_labels y_train <-> l ∈ y_train.
Proof.
  unfold unique_labels, py_set.
  rewrite elem_of_sorted, elem_of_list_to_set. reflexivity.
Qed.

(** In the dictionary built from a duplicate-free list, a label is mapped
    to its position in the list. *)
Lemma index_dict_lookup (labels : list str) (l : str) (i : nat) :
  NoDup labels ->
  index_dict labels !! l = Some i <-> labels !! i = Some l.
Proof.
  intros Hnd. unfold index_dict. split.
  - intros Hl. apply elem_of_enumerate. by apply foldl_insert_Some.
  - intros Hl. apply foldl_insert_in.
    + rewrite enumerate_snd. exact Hnd.
    + by apply elem_of_enumerate.
Qed.

Lemma index_dict_None (labels : list str) (l : str) :
  index_dict labels !! l = None <-> l ∉ labels.
Proof.
  unfold index_dict. split.
  - intros Hnone Hin. apply list_elem_of_lookup in Hin as [i Hi].
    destruct (index_dict labels !! l) as [j|] eqn:Hj.
    + unfold index_dict in Hj. congruence.
    + clear Hj. revert Hnone.
      assert (Hex : exists j, (j, l) ∈ enumerate labels).
      { exists i. by apply elem_of_enumerate. }
      clear Hi. generalize (∅ : gmap str nat).
      induction (enumerate labels) as [|p ps IH]; intros d.
      * destruct Hex as [j Hj]. by apply elem_of_nil in Hj.
      * cbn. destruct (decide (l ∈ ps.*2)) as [Hin|Hnotin].
        -- apply IH. apply list_elem_of_fmap in Hin as ([j l'] & -> & Hin).
           eauto.
        -- rewrite foldl_insert_notin by exact Hnotin.
           destruct Hex as [j Hj]. apply elem_of_cons in Hj as [<-|Hj].
           ++ cbn. by rewrite lookup_insert_eq.
           ++ exfalso. apply Hnotin. apply list_elem_of_fmap.
              by exists (j, l).
  - intros Hnotin. rewrite foldl_insert_notin.
    + apply lookup_empty.
    + by rewrite enumerate_snd.
Qed.

(** Inverting a dictionary with pairwise distinct values swaps keys and
    values. *)
Lemma invert_lookup (d : gmap str nat) (i : nat) (l : str) :
  (forall l1 l2 j, d !! l1 = Some j -> d !! l2 = Some j -> l1 = l2) ->
  invert d !! i = Some l <-> d !! l = Some i.
Proof.
  intros Hinj. unfold invert. split.
  - intros Hi. apply foldl_insert_Some in Hi.
    by apply elem_of_map_to_list in Hi.
  - intros Hl. apply foldl_insert_in.
    + apply NoDup_fmap_2_strong; [|apply NoDup_map_to_list].
      intros [l1 j1] [l2 j2] H1 H2 Heq. cbn in Heq. subst j2.
      apply elem_of_map_to_list in H1, H2.
      by rewrite (Hinj l1 l2 j1 H1 H2).
    + by apply elem_of_map_to_list.
Qed.

Lemma index_dict_inj (labels : list str) l1 l2 j :
  NoDup labels ->
  index_dict labels !! l1 = Some j -> index_dict labels !! l2 = Some j ->
  l1 = l2.
Proof.
  intros Hnd H1 H2.
  apply (index_dict_lookup _ _ _ Hnd) in H1, H2. congruence.
Qed.

(** The inverse of the training-time dictionary does decode what that
    dictionary encodes. *)
Lemma lang2idx_invert_roundtrip (y_train y_test : list str) (lang : str) :
  lang ∈ all_labels y_train y_test ->
  result_bind (getitem_str (lang2idx y_train y_test) lang)
              (decode (invert (lang2idx y_train y_test))) = ok lang.
Proof.
  intros Hin. unfold lang2idx, getitem_str, decode, getitem_int.
  pose proof (NoDup_sorted (py_set y_train ∪ py_set y_test)) as Hnd.
  fold (all_labels y_train y_test) in Hnd.
  apply list_elem_of_lookup in Hin as [i Hi].
  apply (index_dict_lookup _ _ _ Hnd) in Hi. rewrite Hi. cbn.
  apply (invert_lookup _ i lang) in Hi.
  - by rewrite Hi.
  - intros l1 l2 j. by apply index_dict_inj.
Qed.

(** So does the predictor's dictionary, provided every test label also
    occurs among the training labels. *)
Lemma index_to_language_roundtrip (y_train y_test : list str) (lang : str) :
  (forall l, l ∈ y_test -> l ∈ y_train) ->
  lang ∈ all_labels y_train y_test ->
  result_bind (getitem_str (lang2idx y_train y_test) lang)
              (decode (index_to_language y_train)) = ok lang.
Proof.
  intros Hsub Hin.
  assert (Heq : py_set y_train ∪ py_set y_test = py_set y_train).
  { unfold py_set. apply set_eq. intros l.
    rewrite elem_of_union, !elem_of_list_to_set.
    split; [intros [Hl|Hl]; auto | auto]. }
  assert (Hlabels : unique_labels y_train = all_labels y_train y_test).
  { unfold unique_labels, all_labels. by rewrite Heq. }
  unfold index_to_language, label_to_index. rewrite Hlabels.
  by apply lang2idx_invert_roundtrip.
Qed.

Lemma encode_labels_first_missing (d : gmap str nat) (labels : list str)
    (lang : str) :
  lang ∈ labels -> d !! lang = None ->
  exists missing,
    encode_labels d labels = throw (KeyError (KStr missing))
    /\ missing ∈ labels /\ d !! missing = None.
Proof.
  induction labels as [|x labels IH]; intros Hin Hnone.
  - by apply elem_of_nil in Hin.
  - destruct (d !! x) as [i|] eqn:Hx.
    + apply elem_of_cons in Hin as [->|Hin]; [congruence|].
      destruct (IH Hin Hnone) as (missing & Henc & Hmem & Hmiss).
      exists missing. repeat split; [|by apply elem_of_cons; right|done].
      unfold encode_labels in *. cbn. unfold getitem_str at 1.
      rewrite Hx. cbn. rewrite Henc. reflexivity.
    + exists x. repeat split; [|by apply elem_of_cons; left|done].
      unfold encode_labels. cbn. unfold getitem_str at 1.
      rewrite Hx. reflexivity.
Qed.

(** Labels of either split are encoded by their position in [all_labels]. *)
Lemma encode_labels_known (y_train y_test labels : list str) :
  Forall (fun l => l ∈ y_train \/ l ∈ y_test) labels ->
  exists idx,
    encode_labels (lang2idx y_train y_test) labels = ok idx
    /\ Forall2 (fun i l => all_labels y_train y_test !! i = Some l) idx labels.
Proof.
  pose proof (NoDup_sorted (py_set y_train ∪ py_set y_test)) as Hnd.
  fold (all_labels y_train y_test) in Hnd.
  induction 1 as [|l labels Hl _ (idx & Henc & Hidx)].
  - exists []. split; [reflexivity|constructor].
  - apply elem_of_all_labels, list_elem_of_lookup in Hl as [i Hi].
    exists (i :: idx). split; [|by constructor].
    apply (index_dict_lookup _ _ _ Hnd) in Hi.
    fold (lang2idx y_train y_test) in Hi.
    unfold encode_labels in *. cbn. unfold getitem_str at 1.
    rewrite Hi. cbn. rewrite Henc. reflexivity.
Qed.

(** C7 (as amended). A label that occurs neither among the training labels
    nor among the evaluation labels makes [encode_labels] raise [KeyError]:
    the call fails at the first label of its argument that is in neither
    split, and no index is returned. *)
Theorem encode_labels_unknown (y_train y_test labels : list str) (lang : str) :
  lang ∉ y_train -> lang ∉ y_test -> lang ∈ labels ->
  exists missing,
    encode_labels (lang2idx y_train y_test) labels
      = throw (KeyError (KStr missing))
    /\ missing ∈ labels /\ (missing ∉ y_train) /\ (missing ∉ y_test).
Proof.
  intros Htrain Htest Hin.
  destruct (encode_labels_first_missing (lang2idx y_train y_test) labels lang
              Hin) as (missing & Henc & Hmem & Hmiss).
  - apply index_dict_None. rewrite elem_of_all_labels. tauto.
  - exists missing. split; [exact Henc|]. split; [exact Hmem|].
    apply index_dict_None in Hmiss. rewrite elem_of_all_labels in Hmiss.
    tauto.
Qed.

(** ** Prediction and evaluation *)

Lemma known_vectors_unbound w (tokenized_text : list str) :
  global_word2vec w = None ->
  known_vectors tokenized_text w =
    match tokenized_text with
    | [] => (ok [], w)
    | _ :: _ => (throw (NameError "word2vec"), w)
    end.
Proof.
  intros Hw. destruct tokenized_text as [|word rest]; [reflexivity|].
  cbn. unfold bind, load_global_word2vec. rewrite Hw. reflexivity.
Qed.

Lemma known_vectors_bound w d (tokenized_text : list str) :
  global_word2vec w = Some d ->
  known_vectors tokenized_text w = (ok (omap (d !!.) tokenized_text), w).
Proof.
  intros Hw. induction tokenized_text as [|word rest IH]; [reflexivity|].
  cbn. unfold bind at 1, load_global_word2vec. rewrite Hw. cbn.
  destruct (d !! word) as [v|]; cbn; [|exact IH].
  unfold bind, ret. rewrite IH. reflexivity.
Qed.

Lemma known_vectors_world w (tokenized_text : list str) :
  (known_vectors tokenized_text w).2 = w.
Proof.
  destruct (global_word2vec w) as [d|] eqn:Hw.
  - by rewrite (known_vectors_bound _ _ _ Hw).
  - rewrite (known_vectors_unbound _ _ Hw). by destruct tokenized_text.
Qed.

(** No function of the pipeline writes to the interpreter state. *)
Lemma predict_language_world w text model vectorizer_type :
  (predict_language text model vectorizer_type w).2 = w.
Proof.
  unfold predict_language.
  destruct (String.eqb vectorizer_type "word2vec"); [|reflexivity].
  unfold bind, lift, ret.
  pose proof (known_vectors_world w (word_tokenize (lower text))) as Hw.
  destruct (known_vectors (word_tokenize (lower text)) w) as [[e|vs] w'].
  - exact Hw.
  - cbn in Hw. subst w'.
    destruct (predict model _) as [e|predicted]; [reflexivity|].
    destruct (getitem predicted 0); reflexivity.
Qed.

Lemma train_and_tune_model_world w X_train y_train vectorizer_type :
  (train_and_tune_model GridSearchCV_fit Pipeline_fit X_train y_train
     vectorizer_type w).2 = w.
Proof.
  unfold train_and_tune_model, bind, lift, ret.
  destruct (String.eqb vectorizer_type "tfidf").
  - destruct (GridSearchCV_fit _ _); reflexivity.
  - destruct (String.eqb vectorizer_type "word2vec"); [|reflexivity].
    destruct (Pipeline_fit _ _); reflexivity.
Qed.

(** Any [vectorizer_type] other than ['word2vec'] falls through. *)
Lemma predict_language_fall_through w text model vectorizer_type :
  String.eqb vectorizer_type "word2vec" = false ->
  predict_language text model vectorizer_type w = (ok None, w).
Proof. intros Hvt. unfold predict_language. rewrite Hvt. reflexivity. Qed.

(** C2. Called with ['tfidf'], [predict_language] takes neither branch: it
    returns [None] without calling [model.predict], whatever the pipeline
    would have predicted for the text. *)
Theorem predict_language_tfidf w text model :
  predict_language text model "tfidf" w = (ok None, w).
Proof. reflexivity. Qed.

(** C3. With ['word2vec'], the first argument that [train_and_tune_model]
    hands to [fit] is the dictionary returned by [word2vec_transform]: one
    entry per word of the embedding vocabulary, not one mean vector per
    training sample. *)
Theorem train_and_tune_model_word2vec_fit w X_train y_train :
  train_and_tune_model GridSearchCV_fit Pipeline_fit X_train y_train
      "word2vec" w
    = (result_bind
         (Pipeline_fit (WordVectors (word2vec_transform X_train)) y_train)
         (fun pipeline => ok (Some pipeline)), w)
  /\ forall word,
       is_Some (word2vec_transform X_train !! word)
       <-> word ∈ Word2Vec_index_to_key X_train.
Proof.
  split.
  - unfold train_and_tune_model, bind, lift, ret. cbn.
    destruct (Pipeline_fit _ _); reflexivity.
  - intros word. unfold word2vec_transform.
    generalize (Word2Vec_wv X_train). intros wv.
    induction (Word2Vec_index_to_key X_train) as [|k ks IH] using rev_ind.
    + cbn. rewrite lookup_empty. split; [by intros [? ?]|].
      intros Hin. by apply elem_of_nil in Hin.
    + rewrite foldl_app, elem_of_app, list_elem_of_singleton. cbn.
      destruct (decide (k = word)) as [->|Hne].
      * rewrite lookup_insert_eq. split; eauto.
      * rewrite lookup_insert_ne by exact Hne. rewrite IH.
        split; [auto|]. intros [Hin|Heq]; [exact Hin|congruence].
Qed.

Lemma predict_each_world w X model vectorizer_type :
  (predict_each X model vectorizer_type w).2 = w.
Proof.
  induction X as [|text X IH]; [reflexivity|].
  cbn [predict_each]. unfold bind at 1.
  pose proof (predict_language_world w text model vectorizer_type) as Hw.
  destruct (predict_language text model vectorizer_type w) as [[e|p] w'];
    cbn in Hw; subst w'; [reflexivity|].
  unfold bind, ret.
  destruct (predict_each X model vectorizer_type w) as [[e|ps] w'];
    exact IH.
Qed.

Lemma predict_and_evaluate_world w X y model vectorizer_type :
  (predict_and_evaluate X y model vectorizer_type w).2 = w.
Proof.
  unfold predict_and_evaluate, bind, lift, ret.
  pose proof (predict_each_world w X model vectorizer_type) as Hw.
  destruct (predict_each X model vectorizer_type w) as [[e|ps] w'];
    cbn in Hw; subst w'; [reflexivity|].
  destruct (accuracy_score y ps); reflexivity.
Qed.

Lemma predict_each_labels w X model vectorizer_type (labels : list str) :
  Forall2 (fun text label =>
             (predict_language text model vectorizer_type w).1
               = ok (Some label)) X labels ->
  predict_each X model vectorizer_type w = (ok (Some <$> labels), w).
Proof.
  induction 1 as [|text label X labels Hp _ IH]; [reflexivity|].
  cbn. unfold bind at 1.
  pose proof (predict_language_world w text model vectorizer_type) as Hw.
  destruct (predict_language text model vectorizer_type w) as [r w'].
  cbn in Hp, Hw. subst r w'. unfold bind, ret. rewrite IH. reflexivity.
Qed.

Lemma all_labels_of_Some (labels : list str) :
  all_labels_of (Some <$> labels) = Some labels.
Proof.
  induction labels as [|l labels IH]; [reflexivity|].
  cbn. rewrite IH. reflexivity.
Qed.

Lemma count_equal_from (y_true y_pred before_true before_pred : list str) :
  length before_true = length before_pred ->
  length y_true = length y_pred ->
  count_equal y_true y_pred =
    length (filter (fun i => (before_true ++ y_true) !! i
                             = (before_pred ++ y_pred) !! i)
                   (seq (length before_true) (length y_true))).
Proof.
  revert y_pred before_true before_pred.
  induction y_true as [|a y_true IH];
    intros [|b y_pred] pt pp Hp Hlen; try discriminate; [reflexivity|].
  cbn [count_equal length seq]. rewrite filter_cons.
  rewrite (IH y_pred (pt ++ [a]) (pp ++ [b]))
    by (rewrite ?length_app; cbn in *; lia).
  rewrite <- !app_assoc. cbn [app]. rewrite length_app. cbn [length].
  rewrite Nat.add_1_r.
  rewrite (list_lookup_middle pt y_true a (length pt)) by reflexivity.
  rewrite (list_lookup_middle pp y_pred b (length pt)) by exact Hp.
  destruct (decide (a = b)) as [->|Hne].
  - rewrite decide_True by reflexivity. reflexivity.
  - rewrite decide_False by congruence. reflexivity.
Qed.

Lemma count_equal_agreements (y_true y_pred : list str) :
  length y_true = length y_pred ->
  count_equal y_true y_pred = agreements y_true y_pred.
Proof. intros Hlen. exact (count_equal_from y_true y_pred [] [] eq_refl Hlen). Qed.

(** C6. When every per-sample prediction is a label, the accuracy returned
    by [predict_and_evaluate] is the number of positions at which the
    predicted label equals the ground-truth label, divided by the number of
    evaluation samples; with 5 samples of which 3 are predicted correctly
    it is 0.6. *)
Theorem predict_and_evaluate_accuracy
    w X y model vectorizer_type (labels : list str) :
  X <> [] ->
  length X = length y ->
  Forall2 (fun text label =>
             (predict_language text model vectorizer_type w).1
               = ok (Some label)) X labels ->
  exists q,
    predict_and_evaluate X y model vectorizer_type w = (ok (Real q), w)
    /\ q = Qmake (Z.of_nat (agreements y labels)) (Pos.of_nat (length y))
    /\ (length y = 5 -> agreements y labels = 3 -> (q == 6 # 10)%Q).
Proof.
  intros Hne Hlen Hpred.
  exists (Qmake (Z.of_nat (agreements y labels)) (Pos.of_nat (length y))).
  split; [|split; [reflexivity|]].
  - unfold predict_and_evaluate, bind, lift, ret.
    rewrite (predict_each_labels _ _ _ _ _ Hpred).
    unfold accuracy_score, ok at 1. cbv beta iota.
    rewrite length_fmap, <- (Forall2_length _ _ _ Hpred), <- Hlen.
    rewrite Nat.eqb_refl. cbn [negb].
    destruct y as [|y0 y]; [destruct X; [done|discriminate]|].
    rewrite all_labels_of_Some, count_equal_agreements; [reflexivity|].
    rewrite <- Hlen. exact (Forall2_length _ _ _ Hpred).
  - intros -> ->. reflexivity.
Qed.

Lemma predict_each_inv w X model vectorizer_type predictions w' :
  predict_each X model vectorizer_type w = (ok predictions, w') ->
  w' = w
  /\ Forall2 (fun text p =>
                (predict_language text model vectorizer_type w).1 = ok p)
             X predictions.
Proof.
  revert predictions.
  induction X as [|text X IH]; intros predictions Hrun.
  - cbn in Hrun. injection Hrun as <- <-. split; [reflexivity|constructor].
  - cbn [predict_each] in Hrun. unfold bind at 1 in Hrun.
    pose proof (predict_language_world w text model vectorizer_type) as Hw.
    destruct (predict_language text model vectorizer_type w)
      as [[e|p] w1] eqn:Hp; [discriminate|].
    cbn in Hw. subst w1. unfold bind, ret in Hrun.
    destruct (predict_each X model vectorizer_type w)
      as [[e|ps] w2] eqn:Hps; [discriminate|].
    injection Hrun as <- <-.
    destruct (IH ps eq_refl) as [-> Hall].
    split; [reflexivity|]. constructor; [by rewrite Hp|exact Hall].
Qed.

Lemma all_labels_of_inv (y_pred : list (option str)) (labels : list str) :
  all_labels_of y_pred = Some labels -> y_pred = Some <$> labels.
Proof.
  revert labels. induction y_pred as [|[l|] y_pred IH]; intros labels Hl.
  - injection Hl as <-. reflexivity.
  - cbn in Hl. destruct (all_labels_of y_pred) as [ls|]; [|discriminate].
    injection Hl as <-. cbn. by rewrite (IH ls eq_refl).
  - discriminate.
Qed.

(** Conversely, whenever [predict_and_evaluate] returns, the evaluation
    set was empty and the value is [nan], or every prediction was a label
    and the value is the fraction of agreements. *)
Lemma predict_and_evaluate_returns w X y model vectorizer_type accuracy w' :
  predict_and_evaluate X y model vectorizer_type w = (ok accuracy, w') ->
  w' = w /\ length X = length y
  /\ ((X = [] /\ accuracy = NaN)
      \/ (X <> [] /\ exists labels,
            Forall2 (fun text label =>
                       (predict_language text model vectorizer_type w).1
                         = ok (Some label)) X labels
            /\ accuracy = Real (Qmake (Z.of_nat (agreements y labels))
                                      (Pos.of_nat (length y))))).
Proof.
  unfold predict_and_evaluate, bind, lift, ret. intros Hrun.
  destruct (predict_each X model vectorizer_type w)
    as [[e|predictions] w1] eqn:Hps; [discriminate|].
  destruct (predict_each_inv _ _ _ _ _ _ Hps) as [-> Hall].
  pose proof (Forall2_length _ _ _ Hall) as HlenX.
  unfold accuracy_score in Hrun.
  destruct (length y =? length predictions) eqn:Hlen; [|discriminate].
  apply Nat.eqb_eq in Hlen. cbn [negb] in Hrun.
  split; [|split; [lia|]].
  - unfold ok, throw in Hrun.
    destruct y; [|destruct (all_labels_of predictions)]; congruence.
  - destruct y as [|y0 y].
    + left. injection Hrun as <- _. split; [|reflexivity].
      destruct X; [reflexivity|]. cbn in *. lia.
    + right. split; [destruct X; [cbn in *; lia|discriminate]|].
      destruct (all_labels_of predictions) as [labels|] eqn:Hlabels;
        [|discriminate].
      apply all_labels_of_inv in Hlabels. subst predictions.
      injection Hrun as <- _. exists labels. split.
      * by apply Forall2_fmap_r in Hall.
      * rewrite <- count_equal_agreements; [reflexivity|].
        rewrite length_fmap in Hlen. exact Hlen.
Qed.

(** With ['tfidf'] every prediction is [None], and scoring a non-empty
    evaluation set is refused. *)
Lemma predict_and_evaluate_tfidf w X y model :
  X <> [] -> length X = length y ->
  predict_and_evaluate X y model "tfidf" w = (throw ValueError, w).
Proof.
  intros Hne Hlen. unfold predict_and_evaluate, bind, lift.
  assert (Hall : predict_each X model "tfidf" w
                 = (ok (replicate (length X) None), w)).
  { clear. induction X as [|text X IH]; [reflexivity|].
    cbn [predict_each length replicate]. unfold bind at 1.
    rewrite predict_language_fall_through by reflexivity.
    unfold ok at 1. cbv beta iota.
    unfold bind, ret. rewrite IH. reflexivity. }
  rewrite Hall. unfold accuracy_score, ok at 1. cbv beta iota.
  rewrite length_replicate, <- Hlen, Nat.eqb_refl. cbn [negb].
  destruct y as [|y0 y]; [destruct X; [done|discriminate]|].
  destruct X as [|text X]; [done|]. reflexivity.
Qed.

(** The Word2Vec branch, step by step. *)
Lemma predict_language_word2vec w text model :
  predict_language text model "word2vec" w =
    match known_vectors (word_tokenize (lower text)) w with
    | (inl e, w') => (inl e, w')
    | (inr vectors, w') =>
        (result_bind
           (predict model (Array (np_mean_axis0_keepdims vectors)))
           (fun predicted =>
              result_bind (getitem predicted 0)
                (fun first => ok (Some first))), w')
    end.
Proof.
  unfold predict_language.
  change (String.eqb "word2vec" "word2vec") with true. cbv iota.
  unfold bind, lift, ret.
  destruct (known_vectors (word_tokenize (lower text)) w) as [[e|vs] w'];
    [reflexivity|].
  destruct (predict model _) as [e|predicted]; [reflexivity|].
  cbn. destruct (getitem predicted 0); reflexivity.
Qed.

(** [predict_language] has no check of its own for a text without a known
    token: the mean of the empty list goes to [model.predict], whose
    outcome becomes the outcome of the call. *)
Lemma predict_language_all_unknown_delegates w d text model :
  global_word2vec w = Some d ->
  Forall (fun word => d !! word = None) (word_tokenize (lower text)) ->
  predict_language text model "word2vec" w
    = (result_bind (predict model (Array (Array1D [nan])))
         (fun predicted =>
            result_bind (getitem predicted 0)
              (fun first => ok (Some first))), w).
Proof.
  intros Hw Hunknown. rewrite predict_language_word2vec.
  rewrite (known_vectors_bound _ _ _ Hw).
  assert (Hnil : omap (d !!.) (word_tokenize (lower text)) = []).
  { induction Hunknown as [|word rest Hnone _ IH]; [reflexivity|].
    cbn. rewrite Hnone. exact IH. }
  by rewrite Hnil.
Qed.

(** C8 (as amended). With a model that validates its input the way
    scikit-learn estimators do, a text none of whose tokens is in the
    embedding vocabulary makes the Word2Vec path of [predict_language]
    fail: with [word2vec] unbound the first token raises [NameError];
    otherwise no vector is collected, the mean of the empty list is the
    one-dimensional [[nan]], and the estimator refuses it. *)
Theorem predict_language_all_unknown w text model :
  validates_input model ->
  (forall d, global_word2vec w = Some d ->
     Forall (fun word => d !! word = None) (word_tokenize (lower text))) ->
  exists e, (predict_language text model "word2vec" w).1 = throw e.
Proof.
  intros Hvalid Hunknown. rewrite predict_language_word2vec.
  destruct (global_word2vec w) as [d|] eqn:Hw.
  - rewrite (known_vectors_bound _ _ _ Hw).
    assert (Hnil : omap (d !!.) (word_tokenize (lower text)) = []).
    { specialize (Hunknown d eq_refl).
      induction Hunknown as [|word rest Hnone _ IH]; [reflexivity|].
      cbn. rewrite Hnone. exact IH. }
    rewrite Hnil. cbn. rewrite Hvalid. eauto.
  - rewrite (known_vectors_unbound _ _ Hw).
    destruct (word_tokenize (lower text)); [|eauto].
    cbn. rewrite Hvalid. eauto.
Qed.

(** C10 (as amended). While the global name [word2vec] is unbound, which
    no function of the pipeline changes, a call of [predict_language] with
    ['word2vec'] on a text that has at least one token raises [NameError]
    before the model is consulted; on a text without tokens the name is
    never evaluated and the call goes on to [model.predict] with the mean of
    an empty list. *)
Theorem predict_language_word2vec_unbound w text model :
  global_word2vec w = None ->
  (forall X_train y_train vectorizer_type,
     global_word2vec
       (train_and_tune_model GridSearchCV_fit Pipeline_fit X_train y_train
          vectorizer_type w).2 = None)
  /\ (forall X y vectorizer_type,
        global_word2vec
          (predict_and_evaluate X y model vectorizer_type w).2 = None)
  /\ (word_tokenize (lower text) <> [] ->
      predict_language text model "word2vec" w
        = (throw (NameError "word2vec"), w))
  /\ (word_tokenize (lower text) = [] ->
      predict_language text model "word2vec" w
        = (result_bind (predict model (Array (Array1D [nan])))
             (fun predicted =>
                result_bind (getitem predicted 0)
                  (fun first => ok (Some first))), w)).
Proof.
  intros Hw. split; [|split; [|split]].
  - intros X_train y_train vectorizer_type.
    rewrite train_and_tune_model_world. exact Hw.
  - intros X y vectorizer_type.
    rewrite predict_and_evaluate_world. exact Hw.
  - intros Htokens. rewrite predict_language_word2vec.
    rewrite (known_vectors_unbound _ _ Hw).
    destruct (word_tokenize (lower text)); [done|reflexivity].
  - intros Htokens. rewrite predict_language_word2vec.
    rewrite (known_vectors_unbound _ _ Hw), Htokens. reflexivity.
Qed.

(** ** Further properties of the sampler *)

Lemma lstrip_head (s : str) c : head (lstrip s) = Some c -> isspace c = false.
Proof.
  induction s as [|a s IH]; cbn; [done|].
  destruct (isspace a) eqn:E; [exact IH|]. cbn. by intros [= <-].
Qed.

Lemma lstrip_snoc (s : str) c :
  isspace c = false -> lstrip (s ++ [c]) = lstrip s ++ [c].
Proof.
  intros Hc. induction s as [|a s IH]; cbn; [by rewrite Hc|].
  by destruct (isspace a).
Qed.

Lemma lstrip_fixed (s : str) :
  (forall c, head s = Some c -> isspace c = false) -> lstrip s = s.
Proof.
  destruct s as [|a s]; cbn; [done|]. intros Hs.
  by rewrite (Hs a eq_refl).
Qed.

(** [lstrip] only removes characters at the front. *)
Lemma lstrip_suffix (s : str) : exists removed, s = removed ++ lstrip s.
Proof.
  induction s as [|a s [removed IH]]; [by exists []|].
  cbn. destruct (isspace a).
  - exists (a :: removed). cbn. by rewrite <- IH.
  - by exists [].
Qed.

Lemma rstrip_prefix (s : str) : exists removed, s = rstrip s ++ removed.
Proof.
  destruct (lstrip_suffix (reverse s)) as [removed Hs].
  exists (reverse removed). unfold rstrip.
  rewrite <- reverse_app, <- Hs. by rewrite reverse_involutive.
Qed.

Lemma rstrip_last (s : str) c : last (rstrip s) = Some c -> isspace c = false.
Proof. unfold rstrip. rewrite last_reverse. apply lstrip_head. Qed.

Lemma rstrip_fixed (s : str) :
  (forall c, last s = Some c -> isspace c = false) -> rstrip s = s.
Proof.
  intros Hs. unfold rstrip. rewrite lstrip_fixed.
  - apply reverse_involutive.
  - intros c. rewrite head_reverse. apply Hs.
Qed.

Lemma strip_no_outer_space (s : str) : no_outer_space (strip s).
Proof.
  unfold strip. split; intros c Hc.
  - destruct (rstrip_prefix (lstrip s)) as [removed Hs].
    apply (lstrip_head s). rewrite Hs.
    destruct (rstrip (lstrip s)); [discriminate|exact Hc].
  - by apply (rstrip_last (lstrip s)).
Qed.

Lemma strip_fixed (s : str) : no_outer_space s -> strip s = s.
Proof.
  intros [Hhead Hlast]. unfold strip.
  rewrite (lstrip_fixed s Hhead). by apply rstrip_fixed.
Qed.

Lemma strip_lines_inv (lines : list str) (idx : list nat) (out : list str) :
  result_map (strip_line lines) idx = ok out -> Forall2 (picks lines) idx out.
Proof.
  revert out. induction idx as [|i idx IH]; intros out Hout.
  - injection Hout as <-. constructor.
  - cbn in Hout. unfold strip_line at 1, getitem in Hout.
    destruct (lines !! i) as [l|] eqn:Hl; [|discriminate]. cbn in Hout.
    destruct (result_map (strip_line lines) idx) as [e|out']; [discriminate|].
    injection Hout as <-. constructor; [|by apply IH].
    unfold picks. by rewrite Hl.
Qed.

(** What a successful call has gone through. *)
Lemma load_data_sample_inv w filepath sample_size random_state out :
  (load_data_sample filepath sample_size random_state w).1 = ok out ->
  exists lines idx,
    files w !! filepath = Some lines
    /\ (sample_range (seed random_state) (length lines) sample_size).1 = ok idx
    /\ Forall2 (picks lines) idx out.
Proof.
  intros Hout. destruct (files w !! filepath) as [lines|] eqn:Hfile.
  - rewrite (load_data_sample_run _ _ _ _ _ Hfile) in Hout. cbn in Hout.
    destruct (sample_range (seed random_state) (length lines) sample_size).1
      as [e|idx] eqn:Hidx; [discriminate|].
    exists lines, idx. repeat split; [exact Hidx|by apply strip_lines_inv].
  - rewrite (load_data_sample_missing _ _ _ _ Hfile) in Hout. discriminate.
Qed.

(** X1. On a file that has been read, the sampler returns exactly when the
    count lies between 0 and the number of lines, and then returns that
    many records; a negative count and a count beyond the last line both
    raise [ValueError]. *)
Theorem load_data_sample_outcome w filepath lines sample_size random_state :
  files w !! filepath = Some lines ->
  if decide (0 <= sample_size <= Z.of_nat (length lines))%Z
  then exists out,
         (load_data_sample filepath sample_size random_state w).1 = ok out
         /\ Z.of_nat (length out) = sample_size
  else (load_data_sample filepath sample_size random_state w).1
         = throw ValueError.
Proof.
  intros Hfile.
  destruct (decide (0 <= sample_size <= Z.of_nat (length lines))%Z)
    as [Hrange|Hout].
  - destruct (load_data_sample_in_range w filepath lines sample_size
                random_state Hfile Hrange)
      as (idx & out & _ & Hout & Hlen & _ & Hpicks).
    exists out. split; [exact Hout|].
    rewrite <- (Forall2_length _ _ _ Hpicks), Hlen. lia.
  - rewrite (load_data_sample_run _ _ _ _ _ Hfile). cbn.
    rewrite sample_range_error by lia. reflexivity.
Qed.

(** X2. Every record the sampler returns is free of leading and trailing
    whitespace (the line terminator included), so stripping it again
    changes nothing. *)
Theorem load_data_sample_stripped w filepath sample_size random_state out :
  (load_data_sample filepath sample_size random_state w).1 = ok out ->
  Forall (fun record => no_outer_space record /\ strip record = record) out.
Proof.
  intros Hout.
  destruct (load_data_sample_inv _ _ _ _ _ Hout)
    as (lines & idx & _ & _ & Hpicks).
  apply (Forall2_Forall_r _ _ _ _ Hpicks), Forall_forall.
  intros i _ record Hrecord. unfold picks in Hrecord.
  destruct (lines !! i) as [l|]; [|discriminate].
  injection Hrecord as <-.
  split; [apply strip_no_outer_space|].
  apply strip_fixed, strip_no_outer_space.
Qed.

Lemma picks_fmap (lines : list str) (idx : list nat) (out : list str) :
  Forall2 (picks lines) idx out ->
  out = (fun i => strip (default [] (lines !! i))) <$> idx.
Proof.
  induction 1 as [|i o idx out Hi _ IH]; [reflexivity|].
  cbn. rewrite <- IH. f_equal. unfold picks in Hi.
  destruct (lines !! i); [|discriminate]. by injection Hi as <-.
Qed.

(** X3. Asking for as many records as the file has lines returns every line
    once, stripped, in some order. *)
Theorem load_data_sample_full_shuffle w filepath lines random_state :
  files w !! filepath = Some lines ->
  exists out,
    (load_data_sample filepath (Z.of_nat (length lines)) random_state w).1
      = ok out
    /\ out ≡ₚ strip <$> lines.
Proof.
  intros Hfile.
  destruct (load_data_sample_in_range w filepath lines
              (Z.of_nat (length lines)) random_state Hfile ltac:(lia))
    as (idx & out & Hidx & Hout & Hlen & Hnodup & Hpicks).
  exists out. split; [exact Hout|].
  destruct (sample_range_ok (seed random_state) (length lines)
              (Z.of_nat (length lines)) ltac:(lia))
    as (idx' & Hidx' & _ & _ & Hlt).
  rewrite Hidx in Hidx'. injection Hidx' as <-.
  assert (Hperm : idx ≡ₚ seq 0 (length lines)).
  { apply submseteq_length_Permutation.
    - apply NoDup_submseteq; [exact Hnodup|].
      intros i Hi. apply elem_of_seq.
      rewrite Forall_forall in Hlt. specialize (Hlt i Hi). lia.
    - rewrite length_seq, Hlen. lia. }
  rewrite (picks_fmap _ _ _ Hpicks), Hperm.
  replace (strip <$> lines)
    with ((fun i => strip (default [] (lines !! i))) <$> seq 0 (length lines));
    [reflexivity|].
  apply list_eq. intros i. rewrite !list_lookup_fmap.
  destruct (decide (i < length lines)) as [Hi|Hi].
  - rewrite lookup_seq_lt by exact Hi. cbn.
    destruct (lookup_lt_is_Some_2 lines i Hi) as [l Hl]. by rewrite Hl.
  - rewrite lookup_seq_ge by lia. by rewrite lookup_ge_None_2 by lia.
Qed.

(** X4. A call that finds its file leaves the shared generator in a state that
    depends on the seed, the number of lines and the count only: whatever
    was drawn before the call has no influence on what is drawn after. *)
Theorem load_data_sample_reseeds
    w1 w2 filepath (lines1 lines2 : list str) sample_size random_state :
  files w1 !! filepath = Some lines1 ->
  files w2 !! filepath = Some lines2 ->
  length lines1 = length lines2 ->
  generator (load_data_sample filepath sample_size random_state w1).2
    = generator (load_data_sample filepath sample_size random_state w2).2.
Proof.
  intros Hf1 Hf2 Hlen.
  rewrite (load_data_sample_run _ _ _ _ _ Hf1),
    (load_data_sample_run _ _ _ _ _ Hf2), Hlen. reflexivity.
Qed.

Lemma bind_fst_ok {A B} (m : M A) (k : A -> M B) w a :
  (m w).1 = ok a -> bind m k w = k a (m w).2.
Proof.
  unfold bind. destruct (m w) as [[e|a'] w']; cbn; [discriminate|].
  by intros [= ->].
Qed.

Lemma bind_fst_throw {A B} (m : M A) (k : A -> M B) w e :
  (m w).1 = throw e -> (bind m k w).1 = throw e.
Proof.
  unfold bind. destruct (m w) as [[e'|a] w']; cbn; [|discriminate].
  by intros [= ->].
Qed.

Lemma load_data_sample_cases w filepath lines sample_size random_state :
  files w !! filepath = Some lines ->
  ((0 <= sample_size <= Z.of_nat (length lines))%Z
   /\ exists out,
        (load_data_sample filepath sample_size random_state w).1 = ok out
        /\ length out = Z.to_nat sample_size)
  \/ (~ (0 <= sample_size <= Z.of_nat (length lines))%Z
      /\ (load_data_sample filepath sample_size random_state w).1
           = throw ValueError).
Proof.
  intros Hfile.
  destruct (decide (0 <= sample_size <= Z.of_nat (length lines))%Z)
    as [Hrange|Hout].
  - left. split; [exact Hrange|].
    destruct (load_data_sample_in_range w filepath lines sample_size
                random_state Hfile Hrange)
      as (idx & out & _ & Hout & Hlen & _ & Hpicks).
    exists out. split; [exact Hout|].
    by rewrite <- (Forall2_length _ _ _ Hpicks).
  - right. split; [exact Hout|].
    rewrite (load_data_sample_run _ _ _ _ _ Hfile). cbn.
    rewrite sample_range_error by lia. reflexivity.
Qed.

(** X5. With the four files in place, [load_datasets] returns exactly when both
    counts fit both files of their pair; it then returns lists of the
    requested lengths, and otherwise it raises [ValueError]. *)
Theorem load_datasets_outcome
    w train_data_path train_labels_path test_data_path test_labels_path
    (train_data train_labels test_data test_labels : list str)
    train_sample_size test_sample_size :
  files w !! train_data_path = Some train_data ->
  files w !! train_labels_path = Some train_labels ->
  files w !! test_data_path = Some test_data ->
  files w !! test_labels_path = Some test_labels ->
  if decide ((0 <= train_sample_size <= Z.of_nat (length train_data))%Z
             /\ (train_sample_size <= Z.of_nat (length train_labels))%Z
             /\ (0 <= test_sample_size <= Z.of_nat (length test_data))%Z
             /\ (test_sample_size <= Z.of_nat (length test_labels))%Z)
  then exists X_train y_train X_test y_test,
         (load_datasets train_data_path train_labels_path test_data_path
            test_labels_path train_sample_size test_sample_size w).1
           = ok (X_train, y_train, X_test, y_test)
         /\ length X_train = Z.to_nat train_sample_size
         /\ length y_train = Z.to_nat train_sample_size
         /\ length X_test = Z.to_nat test_sample_size
         /\ length y_test = Z.to_nat test_sample_size
  else (load_datasets train_data_path train_labels_path test_data_path
          test_labels_path train_sample_size test_sample_size w).1
         = throw ValueError.
Proof.
  intros Hxtr Hytr Hxte Hyte.
  set (w1 := (load_data_sample train_data_path train_sample_size
                default_random_state w).2).
  set (w2 := (load_data_sample train_labels_path train_sample_size
                default_random_state w1).2).
  set (w3 := (load_data_sample test_data_path test_sample_size
                default_random_state w2).2).
  assert (Hf1 : files w1 = files w) by apply load_data_sample_files.
  assert (Hf2 : files w2 = files w).
  { unfold w2. rewrite load_data_sample_files. exact Hf1. }
  assert (Hf3 : files w3 = files w).
  { unfold w3. rewrite load_data_sample_files. exact Hf2. }
  rewrite <- Hf1 in Hytr. rewrite <- Hf2 in Hxte. rewrite <- Hf3 in Hyte.
  destruct (load_data_sample_cases w _ _ train_sample_size
              default_random_state Hxtr)
    as [[R1 (X_train & HX & LX)]|[R1 E1]];
    [|rewrite decide_False by tauto; unfold load_datasets;
      by apply bind_fst_throw].
  destruct (load_data_sample_cases w1 _ _ train_sample_size
              default_random_state Hytr)
    as [[R2 (y_train & Hy & Ly)]|[R2 E2]];
    [|rewrite decide_False by (intros (_ & ? & _); lia);
      unfold load_datasets; rewrite (bind_fst_ok _ _ _ _ HX);
      by apply bind_fst_throw].
  destruct (load_data_sample_cases w2 _ _ test_sample_size
              default_random_state Hxte)
    as [[R3 (X_test & HXt & LXt)]|[R3 E3]];
    [|rewrite decide_False by tauto; unfold load_datasets;
      rewrite (bind_fst_ok _ _ _ _ HX);
      fold w1; rewrite (bind_fst_ok _ _ _ _ Hy);
      by apply bind_fst_throw].
  destruct (load_data_sample_cases w3 _ _ test_sample_size
              default_random_state Hyte)
    as [[R4 (y_test & Hyt & Lyt)]|[R4 E4]];
    [|rewrite decide_False by (intros (_ & _ & ? & ?); lia);
      unfold load_datasets; rewrite (bind_fst_ok _ _ _ _ HX);
      fold w1; rewrite (bind_fst_ok _ _ _ _ Hy);
      fold w2; rewrite (bind_fst_ok _ _ _ _ HXt);
      by apply bind_fst_throw].
  rewrite decide_True by lia.
  exists X_train, y_train, X_test, y_test.
  split; [|by repeat split].
  unfold load_datasets. rewrite (bind_fst_ok _ _ _ _ HX). fold w1.
  rewrite (bind_fst_ok _ _ _ _ Hy). fold w2.
  rewrite (bind_fst_ok _ _ _ _ HXt). fold w3.
  rewrite (bind_fst_ok _ _ _ _ Hyt). reflexivity.
Qed.

(** ** Further properties of the label indexer *)

Lemma NoDup_all_labels (y_train y_test : list str) :
  NoDup (all_labels y_train y_test).
Proof. apply NoDup_sorted. Qed.

Lemma lang2idx_lookup (y_train y_test : list str) (l : str) (i : nat) :
  lang2idx y_train y_test !! l = Some i
  <-> all_labels y_train y_test !! i = Some l.
Proof. apply index_dict_lookup, NoDup_all_labels. Qed.

(** X6. [lang2idx] is defined exactly on the labels of the two splits, and maps
    them one-to-one onto the indices [0 .. n-1], [n] being the number of
    distinct labels. *)
Theorem lang2idx_dense (y_train y_test : list str) :
  (forall l, (l ∈ y_train \/ l ∈ y_test)
             <-> is_Some (lang2idx y_train y_test !! l))
  /\ (forall l i, lang2idx y_train y_test !! l = Some i ->
                  i < length (all_labels y_train y_test))
  /\ (forall i, i < length (all_labels y_train y_test) ->
                exists l, lang2idx y_train y_test !! l = Some i)
  /\ (forall l1 l2 i,
        lang2idx y_train y_test !! l1 = Some i ->
        lang2idx y_train y_test !! l2 = Some i -> l1 = l2).
Proof.
  repeat split.
  - intros Hl. apply elem_of_all_labels, list_elem_of_lookup in Hl as [i Hi].
    exists i. by apply lang2idx_lookup.
  - intros [i Hi]. apply lang2idx_lookup in Hi.
    apply elem_of_all_labels. by apply list_elem_of_lookup_2 in Hi.
  - intros l i Hi. apply lang2idx_lookup in Hi.
    by apply lookup_lt_Some in Hi.
  - intros i Hi. destruct (lookup_lt_is_Some_2 _ i Hi) as [l Hl].
    exists l. by apply lang2idx_lookup.
  - intros l1 l2 i H1 H2. apply lang2idx_lookup in H1, H2. congruence.
Qed.

Lemma str_le_antisym (s t : str) : str_le s t -> str_le t s -> s = t.
Proof.
  unfold str_le. revert t.
  induction s as [|a s IH]; intros [|b t]; cbn; try done.
  rewrite !orb_true_iff, !andb_true_iff, !N.ltb_lt, !N.eqb_eq.
  intros [Hab|[-> Hst]] [Hba|[Heq Hts]]; try lia.
  f_equal. by apply IH.
Qed.

Lemma StronglySorted_lookup_lt {A} (R : relation A) (l : list A) i j a b :
  StronglySorted R l -> i < j -> l !! i = Some a -> l !! j = Some b -> R a b.
Proof.
  intros Hsorted. revert i j.
  induction Hsorted as [|x l _ IH Hall]; intros i j Hij Hi Hj; [done|].
  destruct j as [|j]; [lia|]. destruct i as [|i]; cbn in *.
  - injection Hi as <-. rewrite Forall_forall in Hall.
    apply Hall. by apply list_elem_of_lookup_2 in Hj.
  - apply (IH i j); [lia|done..].
Qed.

(** X7. Sorting removes every trace of the order in which the labels are
    met: sorting any duplicate-free enumeration of the labels of the two
    splits gives [all_labels], which is the only ascending list of these
    labels, so the index built from it is [lang2idx]. *)
Theorem all_labels_any_order (y_train y_test l : list str) :
  NoDup l ->
  (forall x, x ∈ l <-> x ∈ y_train \/ x ∈ y_test) ->
  merge_sort str_le l = all_labels y_train y_test
  /\ (StronglySorted str_le l -> l = all_labels y_train y_test)
  /\ index_dict (merge_sort str_le l) = lang2idx y_train y_test.
Proof.
  intros Hnd Hsame.
  pose proof (StronglySorted_sorted (py_set y_train ∪ py_set y_test))
    as Hsorted. fold (all_labels y_train y_test) in Hsorted.
  assert (Hperm : l ≡ₚ all_labels y_train y_test).
  { apply NoDup_Permutation; [exact Hnd|apply NoDup_all_labels|].
    intros x. by rewrite elem_of_all_labels. }
  assert (Hunique : forall k, StronglySorted str_le k -> k ≡ₚ l ->
                              k = all_labels y_train y_test).
  { intros k Hk Hkl. apply (StronglySorted_unique_strong str_le).
    - intros x1 x2 _ _. apply str_le_antisym.
    - exact Hk.
    - exact Hsorted.
    - by rewrite Hkl. }
  assert (Hsort : merge_sort str_le l = all_labels y_train y_test).
  { apply Hunique; [|apply merge_sort_Permutation].
    apply StronglySorted_merge_sort; [apply str_le_trans|apply str_le_total]. }
  split; [exact Hsort|]. split; [by intros Hl; apply Hunique|].
  unfold lang2idx. by rewrite Hsort.
Qed.

(** X8. Indices follow the code-point order of the labels. *)
Theorem lang2idx_order (y_train y_test : list str) (a b : str) (i j : nat) :
  lang2idx y_train y_test !! a = Some i ->
  lang2idx y_train y_test !! b = Some j ->
  (i < j <-> str_le a b /\ a <> b).
Proof.
  intros Ha Hb. apply lang2idx_lookup in Ha, Hb.
  pose proof (StronglySorted_sorted (py_set y_train ∪ py_set y_test))
    as Hsorted. fold (all_labels y_train y_test) in Hsorted.
  pose proof (NoDup_all_labels y_train y_test) as Hnd.
  split.
  - intros Hij. split.
    + exact (StronglySorted_lookup_lt _ _ _ _ _ _ Hsorted Hij Ha Hb).
    + intros ->. pose proof (NoDup_lookup _ _ _ _ Hnd Ha Hb). lia.
  - intros [Hle Hne].
    destruct (Nat.lt_trichotomy i j) as [Hij|[->|Hji]]; [exact Hij|..].
    + congruence.
    + exfalso. apply Hne, str_le_antisym; [exact Hle|].
      exact (StronglySorted_lookup_lt _ _ _ _ _ _ Hsorted Hji Hb Ha).
Qed.

Lemma encode_labels_inv (d : gmap str nat) (labels : list str) idx :
  encode_labels d labels = ok idx ->
  Forall2 (fun i l => d !! l = Some i) idx labels.
Proof.
  unfold encode_labels. revert idx.
  induction labels as [|l labels IH]; intros idx Henc.
  - injection Henc as <-. constructor.
  - cbn in Henc. unfold getitem_str at 1 in Henc.
    destruct (d !! l) as [i|] eqn:Hl; [|discriminate]. cbn in Henc.
    destruct (result_map _ labels) as [e|idx']; [discriminate|].
    injection Henc as <-. constructor; [exact Hl|by apply IH].
Qed.

Lemma encode_labels_ok (d : gmap str nat) (labels : list str) idx :
  Forall2 (fun i l => d !! l = Some i) idx labels ->
  encode_labels d labels = ok idx.
Proof.
  unfold encode_labels.
  induction 1 as [|i l idx labels Hl _ IH]; [reflexivity|].
  cbn. unfold getitem_str at 1. rewrite Hl. cbn. by rewrite IH.
Qed.

(** X9. [encode_labels] returns a list of indices exactly when every label has
    a position in [all_labels], and the list then holds these positions, in
    order. *)
Theorem encode_labels_positions (y_train y_test labels : list str) idx :
  encode_labels (lang2idx y_train y_test) labels = ok idx
  <-> Forall2 (fun i l => all_labels y_train y_test !! i = Some l) idx labels.
Proof.
  split.
  - intros Henc. apply encode_labels_inv in Henc.
    eapply Forall2_impl; [exact Henc|].
    intros i l. apply lang2idx_lookup.
  - intros Hpos. apply encode_labels_ok.
    eapply Forall2_impl; [exact Hpos|].
    intros i l. apply lang2idx_lookup.
Qed.

(** X10. The two calls [encode_labels(y_train)] and [encode_labels(y_test)] of
    the notebook cannot fail: each returns one index per label, below the
    number of distinct labels. *)
Theorem encode_splits_succeed (y_train y_test : list str) :
  exists train_labels test_labels,
    encode_labels (lang2idx y_train y_test) y_train = ok train_labels
    /\ encode_labels (lang2idx y_train y_test) y_test = ok test_labels
    /\ length train_labels = length y_train
    /\ length test_labels = length y_test
    /\ Forall (fun i => i < length (all_labels y_train y_test))
              (train_labels ++ test_labels).
Proof.
  destruct (encode_labels_known y_train y_test y_train)
    as (train_labels & Htrain & Hpos_train).
  { apply Forall_forall. auto. }
  destruct (encode_labels_known y_train y_test y_test)
    as (test_labels & Htest & Hpos_test).
  { apply Forall_forall. auto. }
  exists train_labels, test_labels.
  split; [exact Htrain|]. split; [exact Htest|].
  split; [exact (Forall2_length _ _ _ Hpos_train)|].
  split; [exact (Forall2_length _ _ _ Hpos_test)|].
  apply Forall_app. split.
  - apply (Forall2_Forall_l _ _ _ _ Hpos_train), Forall_forall.
    intros l _ i Hi. by apply lookup_lt_Some in Hi.
  - apply (Forall2_Forall_l _ _ _ _ Hpos_test), Forall_forall.
    intros l _ i Hi. by apply lookup_lt_Some in Hi.
Qed.

Lemma index_to_language_lookup (y_train : list str) (i : nat) :
  index_to_language y_train !! i = unique_labels y_train !! i.
Proof.
  pose proof (NoDup_sorted (py_set y_train)) as Hnd.
  fold (unique_labels y_train) in Hnd.
  apply option_eq. intros l. unfold index_to_language, label_to_index.
  rewrite invert_lookup by (intros l1 l2 j; by apply index_dict_inj).
  by apply index_dict_lookup.
Qed.

(** X11. Decoding index [i] with the predictor's dictionary gives the [i]-th
    distinct training label in sorted order, and [KeyError] when there are
    no more than [i] such labels. *)
Theorem decode_index_to_language (y_train : list str) (i : nat) :
  decode (index_to_language y_train) i =
    match unique_labels y_train !! i with
    | Some l => ok l
    | None => throw (KeyError (KInt i))
    end.
Proof.
  unfold decode, getitem_int. by rewrite index_to_language_lookup.
Qed.

(** X12. [index_to_language] inverts [label_to_index], in both directions. *)
Theorem label_to_index_round_trip (y_train : list str) :
  (forall l, l ∈ y_train ->
     result_bind (getitem_str (label_to_index y_train) l)
                 (decode (index_to_language y_train)) = ok l)
  /\ (forall i, i < length (unique_labels y_train) ->
        result_bind (decode (index_to_language y_train) i)
                    (getitem_str (label_to_index y_train)) = ok i).
Proof.
  pose proof (NoDup_sorted (py_set y_train)) as Hnd.
  fold (unique_labels y_train) in Hnd.
  split.
  - intros l Hl.
    apply elem_of_unique_labels, list_elem_of_lookup in Hl as [i Hi].
    unfold getitem_str, decode, getitem_int, label_to_index.
    rewrite (proj2 (index_dict_lookup _ _ _ Hnd) Hi). cbn.
    by rewrite index_to_language_lookup, Hi.
  - intros i Hi. destruct (lookup_lt_is_Some_2 _ i Hi) as [l Hl].
    unfold getitem_str, decode, getitem_int, label_to_index.
    rewrite index_to_language_lookup, Hl. cbn.
    by rewrite (proj2 (index_dict_lookup _ _ _ Hnd) Hl).
Qed.

(** X13. The predictor's dictionary decodes every index produced by [lang2idx]
    back to its label exactly when each label of the test split also occurs
    in the training split. *)
Theorem index_to_language_agrees_iff (y_train y_test : list str) :
  (forall lang, lang ∈ all_labels y_train y_test ->
     result_bind (getitem_str (lang2idx y_train y_test) lang)
                 (decode (index_to_language y_train)) = ok lang)
  <-> (forall l, l ∈ y_test -> l ∈ y_train).
Proof.
  split.
  - intros Hround l Hl.
    assert (Hin : l ∈ all_labels y_train y_test).
    { apply elem_of_all_labels. by right. }
    specialize (Hround l Hin).
    apply list_elem_of_lookup in Hin as [i Hi].
    apply lang2idx_lookup in Hi.
    unfold getitem_str in Hround. rewrite Hi in Hround. cbn in Hround.
    unfold decode, getitem_int in Hround.
    rewrite index_to_language_lookup in Hround.
    destruct (unique_labels y_train !! i) as [l'|] eqn:Hl'; [|discriminate].
    injection Hround as ->.
    apply elem_of_unique_labels. by apply list_elem_of_lookup_2 in Hl'.
  - intros Hsub lang Hin. by apply index_to_language_roundtrip.
Qed.

(** ** [LanguageDataset] *)

Lemma lookup_Z_in_range {A} (l : list A) (idx : Z) :
  (- Z.of_nat (length l) <= idx < Z.of_nat (length l))%Z ->
  lookup_Z l idx = l !! Z.to_nat (idx mod Z.of_nat (length l)).
Proof.
  intros Hidx. unfold lookup_Z.
  destruct (idx <? 0)%Z eqn:Hneg.
  - apply Z.ltb_lt in Hneg.
    destruct (Z.ltb_spec (idx + Z.of_nat (length l)) 0); [lia|].
    f_equal. f_equal. apply (Z.mod_unique _ _ (-1)); lia.
  - apply Z.ltb_ge in Hneg. f_equal. f_equal. symmetry.
    apply Z.mod_small. lia.
Qed.

Lemma lookup_Z_out_of_range {A} (l : list A) (idx : Z) :
  ~ (- Z.of_nat (length l) <= idx < Z.of_nat (length l))%Z ->
  lookup_Z l idx = None.
Proof.
  intros Hidx. unfold lookup_Z.
  destruct (idx <? 0)%Z eqn:Hneg.
  - apply Z.ltb_lt in Hneg.
    destruct (Z.ltb_spec (idx + Z.of_nat (length l)) 0); [done|lia].
  - apply Z.ltb_ge in Hneg. apply lookup_ge_None_2. lia.
Qed.

Lemma lookup_Z_take {A} (l : list A) (n : nat) (idx : Z) :
  (0 <= idx < Z.of_nat n)%Z -> lookup_Z (take n l) idx = lookup_Z l idx.
Proof.
  intros Hidx. unfold lookup_Z.
  destruct (Z.ltb_spec idx 0); [lia|]. apply lookup_take_lt. lia.
Qed.

(** The comprehension of [__getitem__] on a list of items. *)
Lemma getitem_rows_ok (items : list (string * list (list Z))) (idx : Z) :
  Forall (fun kv => is_Some (lookup_Z kv.2 idx)) items ->
  result_map
    (fun kv : string * list (list Z) =>
       result_bind (getitem_Z kv.2 idx) (fun row => ok (kv.1, Row row)))
    items
  = ok (prod_map id (fun rows => Row (default [] (lookup_Z rows idx)))
          <$> items).
Proof.
  induction 1 as [|[key rows] items [row Hrow] _ IH]; [reflexivity|].
  cbn in *. unfold getitem_Z at 1. rewrite Hrow. cbn. by rewrite IH.
Qed.

Lemma getitem_rows_error (items : list (string * list (list Z))) (idx : Z) :
  Exists (fun kv => lookup_Z kv.2 idx = None) items ->
  result_map
    (fun kv : string * list (list Z) =>
       result_bind (getitem_Z kv.2 idx) (fun row => ok (kv.1, Row row)))
    items
  = throw IndexError.
Proof.
  induction items as [|[key rows] items IH]; intros Hex.
  - by apply Exists_nil in Hex.
  - cbn. unfold getitem_Z at 1.
    destruct (lookup_Z rows idx) as [row|] eqn:Hrow; [|reflexivity].
    cbn. rewrite IH; [reflexivity|].
    apply Exists_cons in Hex as [Hhead|Htail]; [|exact Htail].
    cbn in Hhead. congruence.
Qed.

Lemma LanguageDataset_getitem_ok (self : LanguageDataset) idx label :
  (forall key rows, encodings self !! key = Some rows ->
                    is_Some (lookup_Z rows idx)) ->
  lookup_Z (labels self) idx = Some label ->
  LanguageDataset_getitem self idx
    = ok (<["labels" := Scalar label]>
            ((fun rows => Row (default [] (lookup_Z rows idx)))
               <$> encodings self)).
Proof.
  intros Hrows Hlabel. unfold LanguageDataset_getitem.
  rewrite getitem_rows_ok.
  - cbn. unfold getitem_Z. rewrite Hlabel. cbn.
    by rewrite list_to_map_fmap, list_to_map_to_list.
  - apply Forall_forall. intros [key rows] Hin.
    apply elem_of_map_to_list in Hin. by apply (Hrows key).
Qed.

Lemma LanguageDataset_getitem_bad_rows (self : LanguageDataset) idx key rows :
  encodings self !! key = Some rows -> lookup_Z rows idx = None ->
  LanguageDataset_getitem self idx = throw IndexError.
Proof.
  intros Hkey Hrows. unfold LanguageDataset_getitem.
  rewrite getitem_rows_error; [reflexivity|].
  apply Exists_exists. exists (key, rows).
  split; [by apply elem_of_map_to_list|exact Hrows].
Qed.

Lemma LanguageDataset_getitem_bad_label (self : LanguageDataset) idx :
  lookup_Z (labels self) idx = None ->
  LanguageDataset_getitem self idx = throw IndexError.
Proof.
  intros Hlabel.
  destruct (decide (map_Forall (fun _ rows => is_Some (lookup_Z rows idx))
                      (encodings self))) as [Hall|Hnot].
  - unfold LanguageDataset_getitem. rewrite getitem_rows_ok.
    + cbn. unfold getitem_Z. by rewrite Hlabel.
    + apply Forall_forall. intros [key rows] Hin.
      apply elem_of_map_to_list in Hin. by apply (Hall key).
  - apply map_not_Forall in Hnot as (key & rows & Hkey & Hrows); [|apply _].
    apply (LanguageDataset_getitem_bad_rows self idx key rows Hkey).
    destruct (lookup_Z rows idx); [|done]. exfalso. apply Hrows. eauto.
Qed.

(** X14. In a dataset whose encodings all have one row per label, an index
    [idx] with [-len <= idx < len] selects position [idx mod len]: the item
    holds that row of every encoding and, under ['labels'], that label. *)
Theorem LanguageDataset_getitem_in_range (self : LanguageDataset) (idx : Z) :
  (forall key rows, encodings self !! key = Some rows ->
                    length rows = LanguageDataset_len self) ->
  (- Z.of_nat (LanguageDataset_len self) <= idx
   < Z.of_nat (LanguageDataset_len self))%Z ->
  exists item label,
    LanguageDataset_getitem self idx = ok item
    /\ labels self !! Z.to_nat (idx mod Z.of_nat (LanguageDataset_len self))
       = Some label
    /\ item !! "labels" = Some (Scalar label)
    /\ forall key, key <> "labels" ->
         item !! key =
           rows ← encodings self !! key;
           Row <$> rows !! Z.to_nat
                             (idx mod Z.of_nat (LanguageDataset_len self)).
Proof.
  unfold LanguageDataset_len. intros Hwf Hidx.
  pose proof (lookup_Z_in_range (labels self) idx Hidx) as Hlabel.
  destruct (lookup_lt_is_Some_2 (labels self)
              (Z.to_nat (idx mod Z.of_nat (length (labels self)))))
    as [label Hpos].
  { pose proof (Z.mod_pos_bound idx (Z.of_nat (length (labels self)))). lia. }
  rewrite Hpos in Hlabel.
  assert (Hrows : forall key rows, encodings self !! key = Some rows ->
            lookup_Z rows idx
            = rows !! Z.to_nat (idx mod Z.of_nat (length (labels self)))).
  { intros key rows Hkey. rewrite <- (Hwf key rows Hkey).
    apply lookup_Z_in_range. by rewrite (Hwf key rows Hkey). }
  eexists _, label. split; [|split; [exact Hpos|split]].
  - apply LanguageDataset_getitem_ok; [|exact Hlabel].
    intros key rows Hkey. rewrite (Hrows key rows Hkey).
    apply lookup_lt_is_Some_2. rewrite (Hwf key rows Hkey).
    by apply lookup_lt_Some in Hpos.
  - apply lookup_insert_eq.
  - intros key Hkey. rewrite lookup_insert_ne by done.
    rewrite lookup_fmap.
    destruct (encodings self !! key) as [rows|] eqn:Henc; [|reflexivity].
    cbn. rewrite (Hrows key rows Henc).
    destruct (rows !! _) as [row|] eqn:Hrow; [reflexivity|].
    exfalso. apply lookup_ge_None in Hrow.
    rewrite (Hwf key rows Henc) in Hrow.
    apply lookup_lt_Some in Hpos. lia.
Qed.

(** X15. For an index that fits a signed 64-bit integer and lies outside
    [-len <= idx < len], [__getitem__] raises [IndexError], whatever the
    encodings hold. *)
Theorem LanguageDataset_getitem_out_of_range
    (self : LanguageDataset) (idx : Z) :
  (- 2 ^ 63 <= idx < 2 ^ 63)%Z ->
  ~ (- Z.of_nat (LanguageDataset_len self) <= idx
     < Z.of_nat (LanguageDataset_len self))%Z ->
  LanguageDataset_getitem self idx = throw IndexError.
Proof.
  intros _ Hidx. apply LanguageDataset_getitem_bad_label.
  by apply lookup_Z_out_of_range.
Qed.

(** X16. The dataset built from the first [n] rows and labels has
    [min n len] items, and each index [0 <= idx < n] gives the same item,
    or the same [IndexError], as in the full dataset. *)
Theorem sliced_dataset_agrees
    (n : nat) (encodings : gmap string (list (list Z))) (labels : list nat)
    (idx : Z) :
  LanguageDataset_len (sliced_dataset n encodings labels)
    = n `min` length labels
  /\ ((0 <= idx < Z.of_nat n)%Z ->
      LanguageDataset_getitem (sliced_dataset n encodings labels) idx
        = LanguageDataset_getitem
            {| encodings := encodings; labels := labels |} idx).
Proof.
  split; [apply length_take|]. intros Hidx.
  destruct (lookup_Z labels idx) as [label|] eqn:Hlabel.
  2:{ rewrite !LanguageDataset_getitem_bad_label; [done|done|].
      cbn. by rewrite lookup_Z_take. }
  destruct (decide (map_Forall (fun _ rows => is_Some (lookup_Z rows idx))
                      encodings)) as [Hall|Hnot].
  - rewrite (LanguageDataset_getitem_ok (sliced_dataset n encodings labels)
               idx label).
    + rewrite (LanguageDataset_getitem_ok
                 {| encodings := encodings; labels := labels |} idx label);
        [|exact Hall|exact Hlabel].
      cbn. f_equal. f_equal. rewrite <- map_fmap_compose.
      apply map_fmap_ext. intros key rows _. cbn.
      by rewrite lookup_Z_take.
    + cbn. intros key rows Hkey.
      apply lookup_fmap_Some in Hkey as (rows' & <- & Hkey).
      rewrite lookup_Z_take by done. by apply (Hall key).
    + cbn. by rewrite lookup_Z_take.
  - apply map_not_Forall in Hnot as (key & rows & Hkey & Hrows); [|apply _].
    assert (Hnone : lookup_Z rows idx = None).
    { destruct (lookup_Z rows idx); [|done]. exfalso. apply Hrows. eauto. }
    rewrite (LanguageDataset_getitem_bad_rows
               {| encodings := encodings; labels := labels |} idx key rows)
      by done.
    apply (LanguageDataset_getitem_bad_rows _ idx key (take n rows)).
    + cbn. by rewrite lookup_fmap, Hkey.
    + by rewrite lookup_Z_take.
Qed.

(** ** [preprocess_text] and [EpochLogger] *)

Lemma filter_all_kept {A} (P : A -> Prop) `{!forall x, Decision (P x)}
    (l : list A) :
  Forall P l -> filter P l = l.
Proof.
  induction 1 as [|x l Hx _ IH]; [reflexivity|].
  by rewrite filter_cons_True, IH.
Qed.

Lemma sublist_into_filter {A} (P : A -> Prop) `{!forall x, Decision (P x)}
    (s l : list A) :
  s `sublist_of` l -> Forall P s -> s `sublist_of` filter P l.
Proof.
  induction 1 as [|x s l _ IH|x s l _ IH]; intros Hs.
  - constructor.
  - apply Forall_cons in Hs as [Hx Hs].
    rewrite filter_cons_True by exact Hx. apply sublist_skip. by apply IH.
  - rewrite filter_cons. destruct (decide (P x)).
    + apply sublist_cons. by apply IH.
    + by apply IH.
Qed.

(** X17. The result of [preprocess_text] is the largest subsequence of the
    lower-cased text that consists of letters a-z and whitespace: it is
    such a subsequence, and every such subsequence is a subsequence of
    it. *)
Theorem preprocess_text_largest (text : str) :
  Forall (fun c => kept c = true) (preprocess_text text)
  /\ preprocess_text text `sublist_of` lower text
  /\ (forall s : str,
        s `sublist_of` lower text -> Forall (fun c => kept c = true) s ->
        s `sublist_of` preprocess_text text).
Proof.
  unfold preprocess_text. split; [|split].
  - apply Forall_forall. intros c Hc.
    by apply list_elem_of_filter in Hc as [Hc _].
  - apply sublist_filter.
  - intros s. apply sublist_into_filter.
Qed.

(** X18. Preprocessing a preprocessed text changes nothing, as long as
    lower-casing leaves strings of letters a-z and whitespace alone. *)
Theorem preprocess_text_idempotent (text : str) :
  (forall s : str, Forall (fun c => kept c = true) s -> lower s = s) ->
  preprocess_text (preprocess_text text) = preprocess_text text.
Proof.
  intros Hlower.
  assert (Hkept : Forall (fun c => kept c = true) (preprocess_text text)).
  { unfold preprocess_text. apply Forall_forall. intros c Hc.
    by apply list_elem_of_filter in Hc as [Hc _]. }
  unfold preprocess_text at 1. rewrite (Hlower _ Hkept).
  by apply filter_all_kept.
Qed.

(** X19. After [n] epochs the logger has printed one line per epoch, numbered
    from its starting count, and has counted [n] more epochs. *)
Theorem after_epochs_log (n : nat) (self : EpochLogger) :
  after_epochs n self
    = ((fun i => lit ("Epoch " +:+ pretty (epoch self + i) +:+ " completed"))
         <$> seq 0 n,
       {| epoch := epoch self + n |}).
Proof.
  revert self. induction n as [|n IH]; intros [e]; cbn [after_epochs].
  - cbn. by rewrite Nat.add_0_r.
  - rewrite IH. cbn [on_epoch_end fst snd epoch seq fmap list_fmap].
    rewrite Nat.add_0_r. f_equal.
    + f_equal. rewrite <- fmap_S_seq, <- list_fmap_compose.
      apply list_fmap_ext. intros _ i _. unfold compose.
      by replace (e + 1 + i) with (e + S i) by lia.
    + f_equal. lia.
Qed.

(** ** Further properties of prediction and evaluation *)

(** X21. Tokens without a vector are skipped: two texts whose tokens have the
    same known vectors, in the same order, get the same outcome. *)
Theorem predict_language_skips_unknown w d text1 text2 model :
  global_word2vec w = Some d ->
  omap (d !!.) (word_tokenize (lower text1))
    = omap (d !!.) (word_tokenize (lower text2)) ->
  predict_language text1 model "word2vec" w
    = predict_language text2 model "word2vec" w.
Proof.
  intros Hw Hsame. rewrite !predict_language_word2vec.
  rewrite !(known_vectors_bound _ _ _ Hw), Hsame. reflexivity.
Qed.

Lemma predict_each_abort w before text after model vectorizer_type e :
  Forall (fun t => exists p,
            (predict_language t model vectorizer_type w).1 = ok p) before ->
  (predict_language text model vectorizer_type w).1 = throw e ->
  predict_each (before ++ text :: after) model vectorizer_type w
    = (throw e, w).
Proof.
  intros Hbefore Hfail.
  induction Hbefore as [|t before [p Hp] _ IH]; cbn [app predict_each].
  - unfold bind.
    pose proof (predict_language_world w text model vectorizer_type) as Hw.
    destruct (predict_language text model vectorizer_type w) as [r w'].
    cbn in *. by subst.
  - unfold bind at 1.
    pose proof (predict_language_world w t model vectorizer_type) as Hw.
    destruct (predict_language t model vectorizer_type w) as [r w'].
    cbn in Hp, Hw. subst r w'. unfold bind. by rewrite IH.
Qed.

(** X22. The evaluator has no fallback: the exception of the first sample that
    fails is the outcome of the whole evaluation, whatever follows it and
    whatever the labels are. *)
Theorem predict_and_evaluate_aborts
    w before text after y model vectorizer_type e :
  Forall (fun t => exists p,
            (predict_language t model vectorizer_type w).1 = ok p) before ->
  (predict_language text model vectorizer_type w).1 = throw e ->
  predict_and_evaluate (before ++ text :: after) y model vectorizer_type w
    = (throw e, w).
Proof.
  intros Hbefore Hfail. unfold predict_and_evaluate, bind.
  by rewrite (predict_each_abort _ _ _ _ _ _ _ Hbefore Hfail).
Qed.

Lemma predict_each_tfidf w X model :
  predict_each X model "tfidf" w = (ok (replicate (length X) None), w).
Proof.
  induction X as [|text X IH]; [reflexivity|].
  cbn [predict_each length replicate]. unfold bind at 1.
  rewrite predict_language_fall_through by reflexivity.
  unfold ok at 1. cbv beta iota.
  unfold bind, ret. rewrite IH. reflexivity.
Qed.

(** X23. With ['tfidf'] the evaluator never reports an accuracy for a sample:
    it raises [ValueError] unless both the texts and the labels are empty,
    in which case the score is [nan]. *)
Theorem predict_and_evaluate_tfidf_outcome w X y model :
  predict_and_evaluate X y model "tfidf" w
    = if decide (X = [] /\ y = []) then (ok NaN, w)
      else (throw ValueError, w).
Proof.
  unfold predict_and_evaluate, bind, lift.
  rewrite predict_each_tfidf. unfold accuracy_score, ok at 1.
  cbv beta iota. rewrite length_replicate.
  destruct (length y =? length X) eqn:Hlen; cbn [negb].
  - apply Nat.eqb_eq in Hlen. destruct y as [|y0 y].
    + destruct X; [|discriminate]. by rewrite decide_True.
    + destruct X as [|text X]; [discriminate|].
      rewrite decide_False by (intros [? _]; discriminate). reflexivity.
  - apply Nat.eqb_neq in Hlen.
    rewrite decide_False; [reflexivity|]. intros [-> ->]. by apply Hlen.
Qed.

Lemma agreements_le (y_true y_pred : list str) :
  agreements y_true y_pred <= length y_true.
Proof.
  unfold agreements. etrans; [apply length_filter|]. by rewrite length_seq.
Qed.

Lemma filter_full {A} (P : A -> Prop) `{!forall x, Decision (P x)}
    (l : list A) :
  length (filter P l) = length l -> Forall P l.
Proof.
  induction l as [|x l IH]; [constructor|].
  rewrite filter_cons. destruct (decide (P x)) as [Hx|Hx]; cbn.
  - intros [= Hlen]. constructor; [exact Hx|by apply IH].
  - intros Hlen. pose proof (length_filter P l). lia.
Qed.

Lemma agreements_full (y_true y_pred : list str) :
  length y_true = length y_pred ->
  (agreements y_true y_pred = length y_true <-> y_pred = y_true).
Proof.
  intros Hlen. unfold agreements. split.
  - intros Hfull.
    assert (Hall : Forall (fun i => y_true !! i = y_pred !! i)
                          (seq 0 (length y_true))).
    { apply (filter_full (fun i => y_true !! i = y_pred !! i)).
      by rewrite length_seq. }
    clear Hfull. rename Hall into Hfull. rewrite Forall_forall in Hfull.
    apply list_eq. intros i.
    destruct (decide (i < length y_true)) as [Hi|Hi].
    + symmetry. apply Hfull, elem_of_seq. lia.
    + by rewrite !lookup_ge_None_2 by lia.
  - intros ->. rewrite filter_all_kept; [by rewrite length_seq|].
    by apply Forall_forall.
Qed.

(** X24. Whenever the evaluator returns, it has left the interpreter as it was
    and got as many texts as labels; the value is [nan] for an empty
    evaluation set, and otherwise the fraction of agreements, which lies
    between 0 and 1 and is 1 exactly when every prediction equals its
    ground-truth label. *)
Theorem predict_and_evaluate_result
    w X y model vectorizer_type accuracy w' :
  predict_and_evaluate X y model vectorizer_type w = (ok accuracy, w') ->
  w' = w /\ length X = length y
  /\ ((X = [] /\ accuracy = NaN)
      \/ (X <> [] /\ exists labels q,
            Forall2 (fun text label =>
                       (predict_language text model vectorizer_type w).1
                         = ok (Some label)) X labels
            /\ accuracy = Real q
            /\ q = Qmake (Z.of_nat (agreements y labels))
                         (Pos.of_nat (length y))
            /\ (0 <= q)%Q /\ (q <= 1)%Q
            /\ ((q == 1)%Q <-> labels = y))).
Proof.
  intros Hrun.
  destruct (predict_and_evaluate_returns _ _ _ _ _ _ _ Hrun)
    as (Hw & Hlen & [[HX Hnan]|(Hne & labels & Hpred & Hq)]).
  { split; [exact Hw|]. split; [exact Hlen|]. by left. }
  split; [exact Hw|]. split; [exact Hlen|]. right. split; [exact Hne|].
  exists labels, (Qmake (Z.of_nat (agreements y labels))
                    (Pos.of_nat (length y))).
  split; [exact Hpred|]. split; [exact Hq|]. split; [reflexivity|].
  pose proof (agreements_le y labels) as Hle.
  assert (Hlabels : length y = length labels).
  { rewrite <- Hlen. exact (Forall2_length _ _ _ Hpred). }
  assert (Hpos : length y <> 0).
  { rewrite <- Hlen. by destruct X. }
  pose proof (agreements_full y labels Hlabels) as Hfull.
  unfold Qle, Qeq. cbn. repeat split; try lia.
  - intros Heq. apply Hfull. lia.
  - intros Heq. apply Hfull in Heq. lia.
Qed.

End NotebookProperties.

(** * The reference generator meets the interface of [random] *)

Lemma randbelow_lt n g : 0 < n -> (Reference.randbelow n g).1 < n.
Proof. intros Hn. cbn. apply Nat.mod_upper_bound. lia. Qed.

Lemma replace_chosen_perm (l : list nat) j x y :
  l !! j = Some x -> x :: <[j:=y]> l ≡ₚ y :: l.
Proof.
  revert j. induction l as [|a l IH]; intros [|j] Hj; try discriminate.
  - injection Hj as ->. cbn. apply perm_swap.
  - cbn in *. rewrite perm_swap, (IH j Hj). apply perm_swap.
Qed.

(** One round of the selection loop: the chosen item together with the
    shortened pool is the pool of the round before. *)
Lemma pool_step_perm (pool : list nat) m j x y :
  j < S m -> pool !! j = Some x -> pool !! m = Some y ->
  x :: take m (<[j:=y]> pool) ≡ₚ take (S m) pool.
Proof.
  intros Hj Hx Hy. rewrite (take_S_r pool m y Hy).
  rewrite <- Permutation_cons_append.
  destruct (decide (j = m)) as [->|Hne].
  - rewrite list_insert_id by exact Hy.
    assert (x = y) as -> by congruence. reflexivity.
  - rewrite take_insert_lt by lia. apply replace_chosen_perm.
    rewrite lookup_take_lt by lia. exact Hx.
Qed.

Lemma pool_select_length k m pool g :
  length (Reference.pool_select k m pool g).1 = k.
Proof.
  revert m pool g. induction k as [|k IH]; intros m pool g; [reflexivity|].
  cbn. by rewrite IH.
Qed.

Lemma pool_select_submseteq k m pool g :
  k <= m -> m <= length pool ->
  (Reference.pool_select k m pool g).1 ⊆+ take m pool.
Proof.
  revert m pool g. induction k as [|k IH]; intros m pool g Hk Hm.
  - apply submseteq_nil_l.
  - destruct m as [|m]; [lia|].
    cbn [Reference.pool_select fst].
    set (j := (Reference.randbelow (S m) g).1).
    assert (Hj : j < S m) by (apply randbelow_lt; lia).
    destruct (lookup_lt_is_Some_2 pool j ltac:(lia)) as [x Hx].
    destruct (lookup_lt_is_Some_2 pool m ltac:(lia)) as [y Hy].
    replace (S m - 1) with m by lia. rewrite Hx, Hy. cbn [default].
    rewrite <- (pool_step_perm pool m j x y Hj Hx Hy).
    apply submseteq_skip, IH; [lia|]. rewrite length_insert. lia.
Qed.

Lemma lcg_random_laws : PyRandomLaws Reference.lcg_random.
Proof.
  split; intros g n k Hk; cbn; unfold Reference.sample.
  - destruct ((k <? 0)%Z || (Z.of_nat n <? k)%Z) eqn:E; [reflexivity|].
    apply orb_false_iff in E as [E1 E2]. lia.
  - destruct ((k <? 0)%Z || (Z.of_nat n <? k)%Z) eqn:E.
    { apply orb_true_iff in E as [E|E]; lia. }
    eexists. split; [reflexivity|].
    pose proof (pool_select_submseteq (Z.to_nat k) n (seq 0 n) g
                  ltac:(lia) ltac:(rewrite length_seq; lia)) as Hsub.
    rewrite firstn_all2 in Hsub by (rewrite length_seq; lia).
    split; [apply pool_select_length|]. split.
    + apply submseteq_Permutation in Hsub as [rest Hrest].
      pose proof (NoDup_seq 0 n) as Hnd. rewrite Hrest in Hnd.
      by apply NoDup_app in Hnd as [Hnd _].
    + apply Forall_forall. intros i Hi.
      apply (elem_of_submseteq _ _ _ Hi), elem_of_seq in Hsub. lia.
Qed.

(** * The theorems on concrete inputs *)

(** Two interpreter states that differ in the generator: same sample. *)
Lemma load_data_sample_deterministic_witness :
  (load_data_sample "y_train.txt" 3 42 Reference.fresh_world).1
    = (load_data_sample "y_train.txt" 3 42 Reference.used_world).1
  /\ ((0 <= 3)%Z ->
      exists out,
        (load_data_sample "y_train.txt" 3 42 Reference.fresh_world).1 = ok out
        /\ (load_data_sample "y_train.txt" 3 42 Reference.used_world).1
           = ok out
        /\ length out = Z.to_nat 3).
Proof.
  apply (load_data_sample_deterministic (random_laws := lcg_random_laws)
           Reference.fresh_world Reference.used_world "y_train.txt"
           Reference.y_train_lines 3 42).
  - reflexivity.
  - reflexivity.
  - cbn. lia.
Defined.

(** Three of the four lines of the training labels. *)
Lemma load_data_sample_count_witness :
  ((Z.of_nat (length Reference.y_train_lines) < 3)%Z ->
     (load_data_sample "y_train.txt" 3 42 Reference.fresh_world).1
       = throw ValueError)
  /\ ((0 <= 3 <= Z.of_nat (length Reference.y_train_lines))%Z ->
      exists idx out,
        (load_data_sample "y_train.txt" 3 42 Reference.fresh_world).1 = ok out
        /\ Z.of_nat (length out) = 3%Z
        /\ NoDup idx
        /\ Forall2 (picks Reference.y_train_lines) idx out).
Proof.
  apply (load_data_sample_count (random_laws := lcg_random_laws)
           Reference.fresh_world "y_train.txt" Reference.y_train_lines 3 42).
  reflexivity.
Defined.

(** Distinct line numbers need not carry distinct contents: the label file
    repeats its labels, and so does the sample. *)
Example sampled_labels_may_repeat :
  (load_data_sample "y_train.txt" 3 42 Reference.fresh_world).1
    = ok [lit "fra"; lit "eng"; lit "fra"]
  /\ (load_data_sample "y_train.txt" 5 42 Reference.fresh_world).1
    = throw ValueError.
Proof. split; vm_compute; reflexivity. Qed.

(** Three training pairs and two test pairs from the reference files. *)
Lemma load_datasets_aligned_witness :
  exists train_idx test_idx X_train y_train X_test y_test,
    (load_datasets "x_train.txt" "y_train.txt" "x_test.txt" "y_test.txt"
       3 2 Reference.fresh_world).1
      = ok (X_train, y_train, X_test, y_test)
    /\ (sample_range (PyRandom := Reference.lcg_random)
          (seed default_random_state) (length Reference.x_train_lines)
          3).1 = ok train_idx
    /\ (sample_range (PyRandom := Reference.lcg_random)
          (seed default_random_state) (length Reference.x_test_lines)
          2).1 = ok test_idx
    /\ length train_idx = Z.to_nat 3
    /\ NoDup train_idx
    /\ length test_idx = Z.to_nat 2
    /\ NoDup test_idx
    /\ Forall2 (picks Reference.x_train_lines) train_idx X_train
    /\ Forall2 (picks Reference.y_train_lines) train_idx y_train
    /\ Forall2 (picks Reference.x_test_lines) test_idx X_test
    /\ Forall2 (picks Reference.y_test_lines) test_idx y_test.
Proof.
  apply (load_datasets_aligned (random_laws := lcg_random_laws)
           Reference.fresh_world "x_train.txt" "y_train.txt" "x_test.txt"
           "y_test.txt"); try reflexivity; cbn; lia.
Defined.

(** C1. The predictor rebuilds the index from the training labels alone,
    while the training-time index covers both splits: with training labels
    eng, fra and the evaluation label deu, the vocabulary label eng is
    encoded as 1 by [lang2idx], and [index_to_language] decodes 1 as fra. *)
Theorem index_to_language_mismatch :
  lit "eng" ∈ all_labels [lit "eng"; lit "fra"] [lit "deu"]
  /\ getitem_str (lang2idx [lit "eng"; lit "fra"] [lit "deu"]) (lit "eng")
     = ok 1
  /\ decode (index_to_language [lit "eng"; lit "fra"]) 1 = ok (lit "fra").
Proof.
  split; [|split].
  - apply elem_of_all_labels. left. apply elem_of_cons. by left.
  - vm_compute. reflexivity.
  - vm_compute. reflexivity.
Qed.

(** A model that would have answered is never asked. *)
Example tfidf_prediction_is_dropped :
  predict Reference.constant_model (Texts [lit "hello there"])
    = ok [lit "eng"]
  /\ (predict_language (lit "hello there") Reference.constant_model "tfidf"
        Reference.fresh_world).1 = ok None.
Proof. split; reflexivity. Qed.

(** One training sample, two vocabulary entries handed to [fit]. *)
Example word2vec_fit_receives_vocabulary :
  length [lit "ab"] = 1
  /\ len (WordVectors
            (word2vec_transform (libraries := Reference.simple_libraries)
               [lit "ab"])) = 2
  /\ (train_and_tune_model Reference.fit Reference.fit [lit "ab"]
        [lit "eng"] "word2vec" Reference.fresh_world).1 = throw TypeError.
Proof. repeat split; vm_compute; reflexivity. Qed.

(** Five samples, three of them predicted correctly. *)
Lemma predict_and_evaluate_accuracy_witness :
  exists q,
    predict_and_evaluate Reference.eval_texts Reference.eval_labels
      Reference.threshold_model "word2vec" Reference.session_world
      = (ok (Real q), Reference.session_world)
    /\ q = Qmake (Z.of_nat (agreements Reference.eval_labels
                              Reference.eval_predictions))
                 (Pos.of_nat (length Reference.eval_labels))
    /\ (length Reference.eval_labels = 5 ->
        agreements Reference.eval_labels Reference.eval_predictions = 3 ->
        (q == 6 # 10)%Q).
Proof.
  apply (predict_and_evaluate_accuracy Reference.session_world
           Reference.eval_texts Reference.eval_labels
           Reference.threshold_model "word2vec" Reference.eval_predictions).
  - discriminate.
  - reflexivity.
  - repeat (constructor; [vm_compute; reflexivity|]). constructor.
Defined.

(** C7 (as stated). A label of the evaluation split that no training
    sample carries is encoded, not refused. *)
Lemma encode_labels_unseen_in_training_counterexample :
(lit "deu" ∉ [lit "eng"])
  /\ encode_labels (lang2idx [lit "eng"] [lit "deu"]) [lit "deu"] = ok [0].
Proof.
  split.
  - intros Hin. apply list_elem_of_singleton in Hin. discriminate.
  - vm_compute. reflexivity.
Qed.

(** A label of neither split, after one that is known. *)
Lemma encode_labels_unknown_witness :
  exists missing,
    encode_labels (lang2idx [lit "eng"] [lit "deu"]) [lit "eng"; lit "xho"]
      = throw (KeyError (KStr missing))
    /\ missing ∈ [lit "eng"; lit "xho"]
    /\ (missing ∉ [lit "eng"]) /\ (missing ∉ [lit "deu"]).
Proof.
  apply (encode_labels_unknown [lit "eng"] [lit "deu"]
           [lit "eng"; lit "xho"] (lit "xho")).
  - intros Hin. apply list_elem_of_singleton in Hin. discriminate.
  - intros Hin. apply list_elem_of_singleton in Hin. discriminate.
  - apply elem_of_cons. right. apply elem_of_cons. by left.
Defined.

(** Two tokens, neither in the embedding vocabulary of the session. *)
Lemma predict_language_all_unknown_witness :
  exists e,
    (predict_language (lit "zzz qqq") Reference.threshold_model "word2vec"
       Reference.session_world).1 = throw e.
Proof.
  apply (predict_language_all_unknown Reference.session_world
           (lit "zzz qqq") Reference.threshold_model).
  - intros v. reflexivity.
  - intros d [= <-]. repeat constructor.
Defined.

(** C8 (as stated). Nothing in [predict_language] rejects a text of
    unknown tokens: handed a model that accepts whatever it is given, the
    call returns a label. *)
Lemma predict_language_all_unknown_counterexample :
  global_word2vec Reference.session_world = Some Reference.embeddings
  /\ Forall (fun word => Reference.embeddings !! word = None)
            (Reference.split_whitespace
               (Reference.ascii_lower (lit "zzz qqq")) [])
  /\ (predict_language (lit "zzz qqq") Reference.constant_model "word2vec"
        Reference.session_world).1 = ok (Some (lit "eng")).
Proof.
  split; [reflexivity|]. split; [repeat constructor|].
  vm_compute. reflexivity.
Qed.

(** C10 (as stated). On a text without tokens the unbound name is never
    evaluated: the call reaches [model.predict], and its outcome depends on
    the model. *)
Lemma predict_language_no_tokens_counterexample :
  global_word2vec Reference.fresh_world = None
  /\ (predict_language (lit "") Reference.threshold_model "word2vec"
        Reference.fresh_world).1 = throw ValueError
  /\ (predict_language (lit "") Reference.constant_model "word2vec"
        Reference.fresh_world).1 = ok (Some (lit "eng")).
Proof. repeat split; vm_compute; reflexivity. Qed.

(** A text with two tokens, in the notebook as written. *)
Lemma predict_language_word2vec_unbound_witness :
  (forall X_train y_train vectorizer_type,
     global_word2vec
       (train_and_tune_model Reference.fit Reference.fit X_train y_train
          vectorizer_type Reference.fresh_world).2 = None)
  /\ (forall X y vectorizer_type,
        global_word2vec
          (predict_and_evaluate X y Reference.threshold_model
             vectorizer_type Reference.fresh_world).2 = None)
  /\ (Reference.split_whitespace (Reference.ascii_lower (lit "hello there"))
        [] <> [] ->
      predict_language (lit "hello there") Reference.threshold_model
        "word2vec" Reference.fresh_world
        = (throw (NameError "word2vec"), Reference.fresh_world))
  /\ (Reference.split_whitespace (Reference.ascii_lower (lit "hello there"))
        [] = [] ->
      predict_language (lit "hello there") Reference.threshold_model
        "word2vec" Reference.fresh_world
        = (result_bind
             (predict Reference.threshold_model
                (Array (Array1D [@nan Reference.simple_libraries])))
             (fun predicted =>
                result_bind (getitem predicted 0)
                  (fun first => ok (Some first))), Reference.fresh_world)).
Proof.
  apply (predict_language_word2vec_unbound Reference.fit Reference.fit
           Reference.fresh_world (lit "hello there")
           Reference.threshold_model).
  reflexivity.
Defined.

(** * The further properties on concrete inputs *)

Lemma ascii_lower_kept (s : str) :
  Forall (fun c => kept c = true) s -> Reference.ascii_lower s = s.
Proof.
  induction 1 as [|c s Hc _ IH]; [reflexivity|].
  unfold Reference.ascii_lower in *. cbn. rewrite IH. f_equal.
  destruct (N.leb_spec 65 c), (N.leb_spec c 90); cbn; try reflexivity.
  exfalso. unfold kept, isspace in Hc.
  rewrite !orb_true_iff, !andb_true_iff, !N.leb_le, !N.eqb_eq in Hc. lia.
Qed.

Lemma small_corpus_well_formed key rows :
  encodings Reference.small_corpus !! key = Some rows ->
  length rows = LanguageDataset_len Reference.small_corpus.
Proof.
  cbn. unfold Reference.token_rows. intros Hkey.
  apply lookup_insert_Some in Hkey as [[_ <-]|[_ Hkey]]; [reflexivity|].
  apply lookup_insert_Some in Hkey as [[_ <-]|[_ Hkey]]; [reflexivity|].
  by rewrite lookup_empty in Hkey.
Qed.

(** The label file has four lines: a count of three is served. *)
Lemma load_data_sample_outcome_witness :
  if decide (0 <= 3 <= Z.of_nat (length Reference.y_train_lines))%Z
  then exists out,
         (load_data_sample "y_train.txt" 3 42 Reference.fresh_world).1
           = ok out
         /\ Z.of_nat (length out) = 3%Z
  else (load_data_sample "y_train.txt" 3 42 Reference.fresh_world).1
         = throw ValueError.
Proof.
  apply (load_data_sample_outcome (random_laws := lcg_random_laws)
           Reference.fresh_world "y_train.txt" Reference.y_train_lines
           3 42).
  reflexivity.
Defined.

(** The three sampled labels carry no line feed. *)
Lemma load_data_sample_stripped_witness :
  Forall (fun record => no_outer_space record /\ strip record = record)
         [lit "fra"; lit "eng"; lit "fra"].
Proof.
  apply (load_data_sample_stripped Reference.fresh_world "y_train.txt" 3 42).
  vm_compute. reflexivity.
Defined.

(** All four training texts, shuffled. *)
Lemma load_data_sample_full_shuffle_witness :
  exists out,
    (load_data_sample "x_train.txt"
       (Z.of_nat (length Reference.x_train_lines)) 42
       Reference.fresh_world).1 = ok out
    /\ out ≡ₚ strip <$> Reference.x_train_lines.
Proof.
  apply (load_data_sample_full_shuffle (random_laws := lcg_random_laws)
           Reference.fresh_world "x_train.txt" Reference.x_train_lines 42).
  reflexivity.
Defined.

(** Texts and labels have four lines each: the generator ends up in the
    same state after sampling either, from either interpreter state. *)
Lemma load_data_sample_reseeds_witness :
  generator (load_data_sample "x_train.txt" 2 42 Reference.fresh_world).2
    = generator (load_data_sample "x_train.txt" 2 42 Reference.used_world).2.
Proof.
  apply (load_data_sample_reseeds Reference.fresh_world Reference.used_world
           "x_train.txt" Reference.x_train_lines Reference.x_train_lines
           2 42); reflexivity.
Defined.

(** Five test samples are more than the three lines of the test files. *)
Lemma load_datasets_outcome_witness :
  if decide ((0 <= 3 <= Z.of_nat (length Reference.x_train_lines))%Z
             /\ (3 <= Z.of_nat (length Reference.y_train_lines))%Z
             /\ (0 <= 5 <= Z.of_nat (length Reference.x_test_lines))%Z
             /\ (5 <= Z.of_nat (length Reference.y_test_lines))%Z)
  then exists X_train y_train X_test y_test,
         (load_datasets "x_train.txt" "y_train.txt" "x_test.txt"
            "y_test.txt" 3 5 Reference.fresh_world).1
           = ok (X_train, y_train, X_test, y_test)
         /\ length X_train = Z.to_nat 3
         /\ length y_train = Z.to_nat 3
         /\ length X_test = Z.to_nat 5
         /\ length y_test = Z.to_nat 5
  else (load_datasets "x_train.txt" "y_train.txt" "x_test.txt" "y_test.txt"
          3 5 Reference.fresh_world).1 = throw ValueError.
Proof.
  apply (load_datasets_outcome (random_laws := lcg_random_laws)
           Reference.fresh_world "x_train.txt" "y_train.txt" "x_test.txt"
           "y_test.txt"); reflexivity.
Defined.

(** The three labels of the splits, met in another order. *)
Lemma all_labels_any_order_witness :
  merge_sort str_le [lit "fra"; lit "deu"; lit "eng"]
    = all_labels [lit "eng"; lit "fra"; lit "eng"] [lit "deu"]
  /\ (StronglySorted str_le [lit "fra"; lit "deu"; lit "eng"] ->
      [lit "fra"; lit "deu"; lit "eng"]
        = all_labels [lit "eng"; lit "fra"; lit "eng"] [lit "deu"])
  /\ index_dict (merge_sort str_le [lit "fra"; lit "deu"; lit "eng"])
     = lang2idx [lit "eng"; lit "fra"; lit "eng"] [lit "deu"].
Proof.
  apply all_labels_any_order.
  - repeat constructor; rewrite ?elem_of_cons, ?elem_of_nil;
      intros Hin; repeat destruct Hin as [Hin|Hin]; try discriminate; done.
  - intros x. rewrite !elem_of_cons, !elem_of_nil. tauto.
Defined.

(** deu comes before fra. *)
Lemma lang2idx_order_witness :
  0 < 2 <-> str_le (lit "deu") (lit "fra") /\ lit "deu" <> lit "fra".
Proof.
  apply (lang2idx_order [lit "eng"; lit "fra"] [lit "deu"]);
    vm_compute; reflexivity.
Defined.

(** The last item of the three, by a negative index. *)
Lemma LanguageDataset_getitem_in_range_witness :
  exists item label,
    LanguageDataset_getitem Reference.small_corpus (-1) = ok item
    /\ labels Reference.small_corpus
         !! Z.to_nat (-1 mod Z.of_nat
                        (LanguageDataset_len Reference.small_corpus))
       = Some label
    /\ item !! "labels" = Some (Scalar label)
    /\ forall key, key <> "labels" ->
         item !! key =
           rows ← encodings Reference.small_corpus !! key;
           Row <$> rows !! Z.to_nat
                             (-1 mod Z.of_nat
                                (LanguageDataset_len Reference.small_corpus)).
Proof.
  apply (LanguageDataset_getitem_in_range Reference.small_corpus (-1)).
  - apply small_corpus_well_formed.
  - cbn. lia.
Defined.

(** There is no fourth item. *)
Lemma LanguageDataset_getitem_out_of_range_witness :
  LanguageDataset_getitem Reference.small_corpus 3 = throw IndexError.
Proof.
  apply (LanguageDataset_getitem_out_of_range Reference.small_corpus 3).
  - lia.
  - cbn. lia.
Defined.

(** ASCII lower-casing leaves letters a-z and whitespace alone. *)
Lemma preprocess_text_idempotent_witness :
  preprocess_text (libraries := Reference.simple_libraries)
    (preprocess_text (libraries := Reference.simple_libraries)
       (lit "Hello, World 42!"))
  = preprocess_text (libraries := Reference.simple_libraries)
      (lit "Hello, World 42!").
Proof.
  apply (preprocess_text_idempotent
           (libraries := Reference.simple_libraries)).
  exact ascii_lower_kept.
Defined.

(** An unknown token after a known one. *)
Lemma predict_language_skips_unknown_witness :
  predict_language (lit "hello zzz") Reference.threshold_model "word2vec"
    Reference.session_world
  = predict_language (lit "hello") Reference.threshold_model "word2vec"
      Reference.session_world.
Proof.
  apply (predict_language_skips_unknown Reference.session_world
           Reference.embeddings).
  - reflexivity.
  - vm_compute. reflexivity.
Defined.

(** The second of three samples has no known token. *)
Lemma predict_and_evaluate_aborts_witness :
  predict_and_evaluate ([lit "hello"] ++ lit "zzz" :: [lit "bonjour"])
    [lit "eng"] Reference.threshold_model "word2vec"
    Reference.session_world
  = (throw ValueError, Reference.session_world).
Proof.
  apply (predict_and_evaluate_aborts Reference.session_world [lit "hello"]
           (lit "zzz") [lit "bonjour"] [lit "eng"]
           Reference.threshold_model "word2vec" ValueError).
  - constructor; [|constructor]. eexists. vm_compute. reflexivity.
  - vm_compute. reflexivity.
Defined.

(** The five-sample evaluation that scores 3/5. *)
Lemma predict_and_evaluate_result_witness :
  Reference.session_world = Reference.session_world
  /\ length Reference.eval_texts = length Reference.eval_labels
  /\ ((Reference.eval_texts = [] /\ Real (3 # 5) = NaN)
      \/ (Reference.eval_texts <> [] /\ exists labels q,
            Forall2 (fun text label =>
                       (predict_language text Reference.threshold_model
                          "word2vec" Reference.session_world).1
                         = ok (Some label)) Reference.eval_texts labels
            /\ Real (3 # 5) = Real q
            /\ q = Qmake (Z.of_nat (agreements Reference.eval_labels labels))
                         (Pos.of_nat (length Reference.eval_labels))
            /\ (0 <= q)%Q /\ (q <= 1)%Q
            /\ ((q == 1)%Q <-> labels = Reference.eval_labels))).
Proof.
  apply (predict_and_evaluate_result Reference.session_world
           Reference.eval_texts Reference.eval_labels
           Reference.threshold_model "word2vec" (Real (3 # 5))
           Reference.session_world).
  vm_compute. reflexivity.
Defined.
